(** * laa: lazy replacements for Python's [any] and [all]

    A shallow embedding of [src/laa/laa.py] (functions [lazy_all] and
    [lazy_any]) and the properties its specification states about them.

    The two functions walk a list of Python objects.  An object that is a
    [bool] is used as it is, an object that is a plain function
    ([types.FunctionType]: a [def] or a [lambda]) is called with no
    argument, every other object is passed over.  What a condition gives
    is then tested with [if]: this runs [bool] on it, which for an
    instance of a user class runs the code of that class.  So user code
    runs at two places, the call and the test; both may change the
    caller's world and both may raise.

    The list itself is an object of that world.  A [for] over a list keeps
    an index and, at every turn, compares it with the length the list has
    then and fetches the entry the list holds then: a thunk that holds a
    reference to the list can change what the loop meets next.  The
    functions are therefore given the place of the list in the world, not
    its contents, and [fuel] bounds the number of turns.

    Calls and tests are taken to end, with a value or with an exception,
    and objects are taken to answer [isinstance] by their type. *)

From Stdlib Require Import String List Bool Arith ZArith Lia.
Import ListNotations.

Set Implicit Arguments.

(** ** Python objects *)

(** Function objects, and objects whose class has a truth test of its own
    ([__bool__] or [__len__]), are named by identifiers; what calling the
    former and testing the latter does is given by two environments (see
    [fenv] and [oenv] below). *)
Definition fid := nat.
Definition oid := nat.

(** The objects a condition list or a function result can hold.
    [VFunc] is an instance of [types.FunctionType]; [VCallable] stands for
    the callables that are not (builtins, bound methods, partials,
    classes); [VOther] is an object of another builtin type, given with
    what [bool] makes of it ([False] for [0.0] or an empty [dict], say);
    [VObject] is an instance of a user class with a truth test of its
    own. *)
#[warnings="-register-all"]
Inductive pyval : Type :=
| VNone
| VBool (b : bool)
| VInt (z : Z)
| VStr (s : string)
| VList (items : list pyval)
| VTuple (items : list pyval)
| VFunc (f : fid)
| VCallable (f : fid)
| VOther (truth : bool)
| VObject (o : oid).

(** A raised exception: its class and its message. *)
Record exn : Type := MkExn { exn_class : string; exn_msg : string }.

(** How a call ends: with a value, or with an exception on its way to the
    caller. *)
Inductive outcome (A : Type) : Type :=
| Return (a : A)
| Raise (e : exn).

Arguments Return {A} a.
Arguments Raise {A} e.

(** ** The two functions *)

Section Laa.

(** Everything user code can observe or change, the condition list
    included. *)
Variable W : Type.

(** What calling function [f] with no argument does in a given world
    (a function that needs an argument raises [TypeError] there). *)
Variable fenv : fid -> W -> outcome pyval * W.

(** What [bool] does on object [o] in a given world. *)
Variable oenv : oid -> W -> outcome bool * W.

(** The state of a run: the world, and the functions called so far, oldest
    first. *)
Record state : Type := MkState { world : W; calls : list fid }.

(** [condition()] *)
Definition call (f : fid) (st : state) : outcome pyval * state :=
  let (o, w') := fenv f (world st) in
  (o, {| world := w'; calls := calls st ++ [f] |}).

(** [bool(v)], which is what [if condition_value] and
    [if not condition_value] run. *)
Definition truth (v : pyval) (st : state) : outcome bool * state :=
  match v with
  | VNone => (Return false, st)
  | VBool b => (Return b, st)
  | VInt z => (Return (negb (Z.eqb z 0)), st)
  | VStr s => (Return (negb (String.eqb s EmptyString)), st)
  | VList items =>
      (Return (match items with [] => false | _ :: _ => true end), st)
  | VTuple items =>
      (Return (match items with [] => false | _ :: _ => true end), st)
  | VFunc _ => (Return true, st)
  | VCallable _ => (Return true, st)
  | VOther t => (Return t, st)
  | VObject o =>
      let (r, w') := oenv o (world st) in
      (r, {| world := w'; calls := calls st |})
  end.

(** [if not condition_value: return False], and the loop goes on with
    [next] otherwise. *)
Definition if_not (condition_value : pyval) (st : state)
  (next : state -> option (outcome bool * state))
  : option (outcome bool * state) :=
  match truth condition_value st with
  | (Return b, st') => if negb b then Some (Return false, st') else next st'
  | (Raise e, st') => Some (Raise e, st')
  end.

(** [if condition_value: return True], and the loop goes on with [next]
    otherwise. *)
Definition if_so (condition_value : pyval) (st : state)
  (next : state -> option (outcome bool * state))
  : option (outcome bool * state) :=
  match truth condition_value st with
  | (Return b, st') => if b then Some (Return true, st') else next st'
  | (Raise e, st') => Some (Raise e, st')
  end.

(** Where in the world the list given to the function is. *)
Variable list_of_conditions : W -> list pyval.

(** The [for] loop of [lazy_all]: [index] is the index the list iterator
    has reached and [evaluated] the tally as it stands; [None] when the
    fuel runs out. *)
Fixpoint iter_all (fuel index evaluated : nat) (st : state)
  : option (outcome bool * state) :=
  match fuel with
  | 0 => None
  | S fuel =>
      match nth_error (list_of_conditions (world st)) index with
      | None => Some (Return (0 <? evaluated), st)
      | Some condition =>
          match condition with
          | VBool _ =>
              let evaluated := evaluated + 1 in
              let condition_value := condition in
              if_not condition_value st (iter_all fuel (S index) evaluated)
          | VFunc f =>
              let evaluated := evaluated + 1 in
              match call f st with
              | (Return condition_value, st') =>
                  if_not condition_value st'
                    (iter_all fuel (S index) evaluated)
              | (Raise e, st') => Some (Raise e, st')
              end
          | _ => iter_all fuel (S index) evaluated st
          end
      end
  end.

Definition lazy_all (fuel : nat) (st : state)
  : option (outcome bool * state) :=
  iter_all fuel 0 0 st.

(** The [for] loop of [lazy_any]. *)
Fixpoint iter_any (fuel index : nat) (st : state)
  : option (outcome bool * state) :=
  match fuel with
  | 0 => None
  | S fuel =>
      match nth_error (list_of_conditions (world st)) index with
      | None => Some (Return false, st)
      | Some condition =>
          match condition with
          | VBool _ =>
              let condition_value := condition in
              if_so condition_value st (iter_any fuel (S index))
          | VFunc f =>
              match call f st with
              | (Return condition_value, st') =>
                  if_so condition_value st' (iter_any fuel (S index))
              | (Raise e, st') => Some (Raise e, st')
              end
          | _ => iter_any fuel (S index) st
          end
      end
  end.

Definition lazy_any (fuel : nat) (st : state)
  : option (outcome bool * state) :=
  iter_any fuel 0 st.

(** ** The vocabulary of the specification *)

(** The entries the functions evaluate: boolean literals and plain
    functions. *)
Definition is_condition (c : pyval) : bool :=
  match c with
  | VBool _ | VFunc _ => true
  | _ => false
  end.

(** What evaluating one entry gives. *)
Inductive verdict : Type :=
| Skipped
| Yields (b : bool)
| Raises (e : exn).

(** Evaluating one entry in a given state: a literal yields its value, a
    thunk is invoked and yields what [bool] makes of what it produces,
    unless the call or the test raises; any other entry is skipped. *)
Definition eval_condition (c : pyval) (st : state) : verdict * state :=
  match c with
  | VBool b => (Yields b, st)
  | VFunc f =>
      match call f st with
      | (Return v, st') =>
          match truth v st' with
          | (Return b, st'') => (Yields b, st'')
          | (Raise e, st'') => (Raises e, st'')
          end
      | (Raise e, st') => (Raises e, st')
      end
  | _ => (Skipped, st)
  end.

(** [passes want k index st = Some (seen, st')]: [k] turns of a loop that
    has reached [index] meet the entries [seen], each fetched from the
    list as it is when its turn comes; every condition among them yields
    a result of truthiness [want]; the turns leave the state [st']. *)
Fixpoint passes (want : bool) (k index : nat) (st : state)
  : option (list pyval * state) :=
  match k with
  | 0 => Some ([], st)
  | S k =>
      match nth_error (list_of_conditions (world st)) index with
      | None => None
      | Some c =>
          let go st' :=
            match passes want k (S index) st' with
            | Some (seen, st'') => Some (c :: seen, st'')
            | None => None
            end in
          match eval_condition c st with
          | (Skipped, st') => go st'
          | (Yields b, st') => if Bool.eqb b want then go st' else None
          | (Raises _, _) => None
          end
      end
  end.

(** The thunks of a list, in list order. *)
Fixpoint thunks (l : list pyval) : list fid :=
  match l with
  | [] => []
  | VFunc f :: rest => f :: thunks rest
  | _ :: rest => thunks rest
  end.

(** The number of conditions of a list. *)
Definition count_conditions (l : list pyval) : nat :=
  length (filter is_condition l).

(** The boolean literals of a list, in list order. *)
Fixpoint booleans (l : list pyval) : list bool :=
  match l with
  | [] => []
  | VBool b :: rest => b :: booleans rest
  | _ :: rest => booleans rest
  end.

(** Three ways for a loop that has reached [index] to end.  After [k]
    turns that pass, on the entries [seen]:
    - the list is at its end ([runs_out]);
    - the next entry [c] is a condition that yields the truthiness the
      loop looks for, the opposite of [want] ([stops]);
    - evaluating the next entry [c] raises [e] ([fails]).
    [st'] is the state the last of these turns leaves. *)
Definition runs_out (want : bool) (k index : nat) (st : state)
  (seen : list pyval) (st' : state) : Prop :=
  passes want k index st = Some (seen, st') /\
  nth_error (list_of_conditions (world st')) (index + k) = None.

Definition stops (want : bool) (k index : nat) (st : state)
  (seen : list pyval) (c : pyval) (st' : state) : Prop :=
  exists st1,
    passes want k index st = Some (seen, st1) /\
    nth_error (list_of_conditions (world st1)) (index + k) = Some c /\
    eval_condition c st1 = (Yields (negb want), st').

Definition fails (want : bool) (k index : nat) (st : state)
  (seen : list pyval) (c : pyval) (e : exn) (st' : state) : Prop :=
  exists st1,
    passes want k index st = Some (seen, st1) /\
    nth_error (list_of_conditions (world st1)) (index + k) = Some c /\
    eval_condition c st1 = (Raises e, st').

(** How a run of [lazy_all] that has ended went, and what it gave: a
    loop started at [index] with the tally [n] ended with [r]. *)
Definition all_ended (fuel index n : nat) (st : state)
  (r : outcome bool * state) : Prop :=
  exists k seen, k < fuel /\
    ((runs_out true k index st seen (snd r) /\
      fst r = Return (0 <? n + count_conditions seen)) \/
     (exists c, stops true k index st seen c (snd r) /\
                fst r = Return false) \/
     (exists c e, fails true k index st seen c e (snd r) /\
                  fst r = Raise e)).

(** The same for [lazy_any]. *)
Definition any_ended (fuel index : nat) (st : state)
  (r : outcome bool * state) : Prop :=
  exists k seen, k < fuel /\
    ((runs_out false k index st seen (snd r) /\ fst r = Return false) \/
     (exists c, stops false k index st seen c (snd r) /\
                fst r = Return true) \/
     (exists c e, fails false k index st seen c e (snd r) /\
                  fst r = Raise e)).

(** What evaluating thunk [f] (the call, and the test of what it returns)
    makes of a world. *)
Definition thunk_effect (f : fid) (w : W) : W :=
  world (snd (eval_condition (VFunc f) {| world := w; calls := [] |})).

(** The world after the thunks of [cs] were evaluated one after the other,
    and nothing else was done to it. *)
Definition replay (cs : list fid) (w : W) : W :=
  fold_left (fun w f => thunk_effect f w) cs w.

(** The run that ends with [r] led from [st] to the state of [r] by
    evaluating thunks only. *)
Definition replayed (st : state) (r : outcome bool * state) : Prop :=
  exists cs, calls (snd r) = calls st ++ cs /\
             world (snd r) = replay cs (world st).

(** Evaluating a thunk of [l] leaves a part of the world as it is. *)
Definition thunks_keep (A : Type) (part : W -> A) (l : list pyval) : Prop :=
  forall f, In (VFunc f) l ->
  forall w, part (thunk_effect f w) = part w.

(** Evaluating a thunk of [l] always yields a result: neither the call nor
    the test of what it returns raises. *)
Definition always_yield (l : list pyval) : Prop :=
  forall f, In (VFunc f) l ->
  forall st, exists b st', eval_condition (VFunc f) st = (Yields b, st').

(** ** The scan of a list that stays as it is

    What the two loops come to on a list that no thunk changes (see
    [iter_all_scans] and [iter_any_scans]): a recursion on the list. *)

Fixpoint scan_all (l : list pyval) (evaluated : nat) (st : state)
  : outcome bool * state :=
  match l with
  | [] => (Return (0 <? evaluated), st)
  | c :: rest =>
      match eval_condition c st with
      | (Skipped, st') => scan_all rest evaluated st'
      | (Yields true, st') => scan_all rest (evaluated + 1) st'
      | (Yields false, st') => (Return false, st')
      | (Raises e, st') => (Raise e, st')
      end
  end.

Fixpoint scan_any (l : list pyval) (st : state) : outcome bool * state :=
  match l with
  | [] => (Return false, st)
  | c :: rest =>
      match eval_condition c st with
      | (Skipped, st') => scan_any rest st'
      | (Yields true, st') => (Return true, st')
      | (Yields false, st') => scan_any rest st'
      | (Raises e, st') => (Raise e, st')
      end
  end.

End Laa.

(** ** Python's [or], [and] and the builtins *)

Section Combinators.

Variable W : Type.

(** Python's [a or b] on two calls that return booleans: [b] runs only when
    [a] returned [False], in the state [a] left. *)
Definition por (a b : state W -> option (outcome bool * state W))
  (st : state W) : option (outcome bool * state W) :=
  match a st with
  | Some (Return true, st') => Some (Return true, st')
  | Some (Return false, st') => b st'
  | Some (Raise e, st') => Some (Raise e, st')
  | None => None
  end.

(** Python's [a and b] on two calls that return booleans: [b] runs only
    when [a] returned [True], in the state [a] left. *)
Definition pand (a b : state W -> option (outcome bool * state W))
  (st : state W) : option (outcome bool * state W) :=
  match a st with
  | Some (Return true, st') => b st'
  | Some (Return false, st') => Some (Return false, st')
  | Some (Raise e, st') => Some (Raise e, st')
  | None => None
  end.

End Combinators.

(** The builtins [all] and [any] on a list of booleans. *)
Fixpoint builtin_all (l : list bool) : bool :=
  match l with
  | [] => true
  | element :: rest => if negb element then false else builtin_all rest
  end.

Fixpoint builtin_any (l : list bool) : bool :=
  match l with
  | [] => false
  | element :: rest => if element then true else builtin_any rest
  end.

(** ** A world to run the functions in *)

Module Demo.

(** The world holds the condition list ([cell]), two more lists to make a
    concatenation from, and a counter on which the thunks leave their
    mark, so that a call that took place shows. *)
Record heap : Type :=
  MkHeap { cell : list pyval;
           first_part : list pyval;
           second_part : list pyval;
           counter : nat }.

Definition bump (n : nat) (h : heap) : heap :=
  {| cell := cell h; first_part := first_part h;
     second_part := second_part h; counter := counter h + n |}.

Definition set_cell (l : list pyval) (h : heap) : heap :=
  {| cell := l; first_part := first_part h;
     second_part := second_part h; counter := counter h |}.

Definition true_thunk : fid := 0.
Definition false_thunk : fid := 1.
Definition counter_thunk : fid := 2.
Definition five_thunk : fid := 3.
Definition zero_thunk : fid := 4.
Definition failing_thunk : fid := 5.
(** [lambda: conditions.append(False) or True] *)
Definition appender : fid := 6.
(** [lambda: conditions.pop(1) is None or True] *)
Definition dropper : fid := 7.
(** [lambda: conditions.append(True)], which returns [None] *)
Definition false_appender : fid := 8.
(** [lambda: Moody()], an object whose [__bool__] raises *)
Definition moody_thunk : fid := 9.

Definition zero_division : exn :=
  {| exn_class := "ZeroDivisionError"; exn_msg := "division by zero" |}.

Definition value_error : exn :=
  {| exn_class := "ValueError"; exn_msg := "no truth value" |}.

Definition moody : oid := 0.

Definition env (f : fid) (h : heap) : outcome pyval * heap :=
  match f with
  | 0 => (Return (VBool true), bump 1 h)
  | 1 => (Return (VBool false), bump 1 h)
  | 2 => (Return (VBool true), bump 100 h)
  | 3 => (Return (VInt 5), bump 1 h)
  | 4 => (Return (VInt 0), bump 1 h)
  | 5 => (Raise zero_division, bump 1 h)
  | 6 => (Return (VBool true), set_cell (cell h ++ [VBool false]) h)
  | 7 => (Return (VBool true),
          set_cell (firstn 1 (cell h) ++ skipn 2 (cell h)) h)
  | 8 => (Return VNone, set_cell (cell h ++ [VBool true]) h)
  | 9 => (Return (VObject moody), bump 1 h)
  | _ => (Return VNone, h)
  end.

Definition objects (o : oid) (h : heap) : outcome bool * heap :=
  match o with
  | 0 => (Raise value_error, h)
  | _ => (Return true, h)
  end.

(** The state in which the list is [l], the counter is at [n] and the
    thunks of [cs] have been called. *)
Definition state_of (l : list pyval) (n : nat) (cs : list fid)
  : state heap :=
  {| world := {| cell := l; first_part := []; second_part := [];
                 counter := n |};
     calls := cs |}.

(** The state before a call on the list [l]. *)
Definition start (l : list pyval) : state heap := state_of l 0 [].

(** The state before calls on [l1], on [l2] and on [l1 + l2]. *)
Definition start_parts (l1 l2 : list pyval) : state heap :=
  {| world := {| cell := l1 ++ l2; first_part := l1; second_part := l2;
                 counter := 0 |};
     calls := [] |}.

End Demo.

(** * Properties *)

Unset Implicit Arguments.

Section Facts.

Variable W : Type.
Variable fenv : fid -> W -> outcome pyval * W.
Variable oenv : oid -> W -> outcome bool * W.
Variable the_list : W -> list pyval.

Local Abbreviation state := (state W).
Local Abbreviation call := (call fenv).
Local Abbreviation truth := (truth oenv).
Local Abbreviation eval_condition := (eval_condition fenv oenv).
Local Abbreviation passes := (passes fenv oenv the_list).
Local Abbreviation iter_all := (iter_all fenv oenv the_list).
Local Abbreviation iter_any := (iter_any fenv oenv the_list).
Local Abbreviation lazy_all := (lazy_all fenv oenv the_list).
Local Abbreviation lazy_any := (lazy_any fenv oenv the_list).
Local Abbreviation scan_all := (scan_all fenv oenv).
Local Abbreviation scan_any := (scan_any fenv oenv).
Local Abbreviation runs_out := (runs_out fenv oenv the_list).
Local Abbreviation stops := (stops fenv oenv the_list).
Local Abbreviation fails := (fails fenv oenv the_list).
Local Abbreviation all_ended := (all_ended fenv oenv the_list).
Local Abbreviation any_ended := (any_ended fenv oenv the_list).
Local Abbreviation thunk_effect := (thunk_effect fenv oenv).
Local Abbreviation replay := (replay fenv oenv).
Local Abbreviation replayed := (replayed fenv oenv).
Local Abbreviation thunks_keep := (thunks_keep fenv oenv).

(** ** Lists *)

Lemma thunks_app (l1 l2 : list pyval) :
  thunks (l1 ++ l2) = thunks l1 ++ thunks l2.
Proof.
  induction l1 as [|c l1 IH]; [reflexivity|].
  destruct c; simpl; rewrite IH; reflexivity.
Qed.

Lemma count_conditions_app (l1 l2 : list pyval) :
  count_conditions (l1 ++ l2) = count_conditions l1 + count_conditions l2.
Proof.
  unfold count_conditions. rewrite filter_app, length_app. reflexivity.
Qed.

Lemma count_conditions_cons (c : pyval) (l : list pyval) :
  count_conditions (c :: l) =
  (if is_condition c then 1 else 0) + count_conditions l.
Proof.
  unfold count_conditions. simpl. destruct (is_condition c); reflexivity.
Qed.

Lemma count_conditions_pos (l : list pyval) :
  0 < count_conditions l <-> exists c, In c l /\ is_condition c = true.
Proof.
  unfold count_conditions. split.
  - intros H. destruct (filter is_condition l) as [|c r] eqn:E.
    + simpl in H. lia.
    + exists c. apply filter_In. rewrite E. left. reflexivity.
  - intros [c Hc]. apply filter_In in Hc.
    destruct (filter is_condition l); [destruct Hc | simpl; lia].
Qed.

Lemma count_conditions_none (l : list pyval) :
  count_conditions l = 0 <-> forall c, In c l -> is_condition c = false.
Proof.
  split.
  - intros H0 c Hin. destruct (is_condition c) eqn:Hc; [|reflexivity].
    assert (Hpos : 0 < count_conditions l).
    { apply count_conditions_pos. exists c. split; assumption. }
    lia.
  - intros Hall. destruct (Nat.eq_dec (count_conditions l) 0) as [|Hn];
      [assumption|].
    assert (Hpos : 0 < count_conditions l) by lia.
    apply count_conditions_pos in Hpos. destruct Hpos as [c [Hin Hc]].
    rewrite (Hall c Hin) in Hc. discriminate.
Qed.

(** ** One entry *)

Lemma truth_calls (v : pyval) (st : state) :
  calls (snd (truth v st)) = calls st.
Proof.
  destruct v; try reflexivity. simpl.
  destruct (oenv o (world st)) as [r w']. reflexivity.
Qed.

Lemma call_calls (f : fid) (st : state) :
  calls (snd (call f st)) = calls st ++ [f].
Proof.
  unfold call. destruct (fenv f (world st)) as [r w']. reflexivity.
Qed.

(** Evaluating an entry calls its thunk, if it is one, and nothing else. *)
Lemma eval_condition_calls (c : pyval) (st st' : state) (v : verdict) :
  eval_condition c st = (v, st') ->
  calls st' = calls st ++ thunks [c].
Proof.
  destruct c as [| b | z | s | items | items | f | g | t | o]; simpl;
    intros H; try (injection H as _ <-; rewrite app_nil_r; reflexivity).
  pose proof (call_calls f st) as Hc.
  destruct (call f st) as [[x|e] st0]; simpl in Hc.
  - pose proof (truth_calls x st0) as Ht.
    destruct (truth x st0) as [[b|e] st1]; simpl in Ht;
      injection H as _ <-; rewrite Ht; exact Hc.
  - injection H as _ <-. exact Hc.
Qed.

Lemma eval_condition_skipped (c : pyval) (st : state) :
  is_condition c = false -> eval_condition c st = (Skipped, st).
Proof. destruct c; try discriminate; reflexivity. Qed.

Lemma eval_condition_kind (c : pyval) (st st' : state) (v : verdict) :
  eval_condition c st = (v, st') ->
  match v with
  | Skipped => is_condition c = false /\ st' = st
  | _ => is_condition c = true
  end.
Proof.
  destruct c as [| b | z | s | items | items | f | g | t | o]; simpl;
    intros H;
    try (injection H as <- <-; split; reflexivity);
    try (injection H as <- _; reflexivity).
  destruct (call f st) as [[x|e] st0].
  - destruct (truth x st0) as [[b|e] st1]; injection H as <- _; reflexivity.
  - injection H as <- _. reflexivity.
Qed.

(** ** One turn of each loop, told from what evaluating the entry gives *)

Lemma iter_all_step (fuel index n : nat) (st : state) :
  iter_all (S fuel) index n st =
  match nth_error (the_list (world st)) index with
  | None => Some (Return (0 <? n), st)
  | Some c =>
      match eval_condition c st with
      | (Skipped, st') => iter_all fuel (S index) n st'
      | (Yields true, st') => iter_all fuel (S index) (n + 1) st'
      | (Yields false, st') => Some (Return false, st')
      | (Raises e, st') => Some (Raise e, st')
      end
  end.
Proof.
  cbn [iter_all].
  destruct (nth_error (the_list (world st)) index) as [c|]; [|reflexivity].
  destruct c as [| b | z | s | items | items | f | g | t | o];
    try reflexivity.
  - destruct b; reflexivity.
  - cbn [eval_condition].
    destruct (call f st) as [[x|e] st0]; [|reflexivity].
    unfold if_not. destruct (truth x st0) as [[[|]|e] st1]; reflexivity.
Qed.

Lemma iter_any_step (fuel index : nat) (st : state) :
  iter_any (S fuel) index st =
  match nth_error (the_list (world st)) index with
  | None => Some (Return false, st)
  | Some c =>
      match eval_condition c st with
      | (Skipped, st') => iter_any fuel (S index) st'
      | (Yields true, st') => Some (Return true, st')
      | (Yields false, st') => iter_any fuel (S index) st'
      | (Raises e, st') => Some (Raise e, st')
      end
  end.
Proof.
  cbn [iter_any].
  destruct (nth_error (the_list (world st)) index) as [c|]; [|reflexivity].
  destruct c as [| b | z | s | items | items | f | g | t | o];
    try reflexivity.
  cbn [eval_condition].
  destruct (call f st) as [[x|e] st0]; [|reflexivity].
  unfold if_so. destruct (truth x st0) as [[[|]|e] st1]; reflexivity.
Qed.

(** ** Turns that pass *)

Lemma passes_cons (want : bool) (k index : nat) (st st0 st' : state)
  (c : pyval) (v : verdict) (seen : list pyval) :
  nth_error (the_list (world st)) index = Some c ->
  eval_condition c st = (v, st0) ->
  v = Skipped \/ v = Yields want ->
  passes want k (S index) st0 = Some (seen, st') ->
  passes want (S k) index st = Some (c :: seen, st').
Proof.
  intros Hn He Hv Hp. cbn [passes]. rewrite Hn, He.
  destruct Hv as [-> | ->]; [|rewrite Bool.eqb_reflx]; rewrite Hp;
    reflexivity.
Qed.

(** What a passing turn is made of. *)
Lemma passes_inv (want : bool) (k index : nat) (st st' : state)
  (seen : list pyval) :
  passes want (S k) index st = Some (seen, st') ->
  exists c v st0 rest,
    nth_error (the_list (world st)) index = Some c /\
    eval_condition c st = (v, st0) /\
    (v = Skipped \/ v = Yields want) /\
    passes want k (S index) st0 = Some (rest, st') /\
    seen = c :: rest.
Proof.
  cbn [passes]. intros H.
  destruct (nth_error (the_list (world st)) index) as [c|] eqn:Hn;
    [|discriminate].
  destruct (eval_condition c st) as [v st0] eqn:E.
  assert (Hgo : v = Skipped \/ v = Yields want ->
                match passes want k (S index) st0 with
                | Some (seen0, st'') => Some (c :: seen0, st'')
                | None => None
                end = Some (seen, st') ->
                exists c0 v0 st1 rest,
                  Some c = Some c0 /\
                  eval_condition c0 st = (v0, st1) /\
                  (v0 = Skipped \/ v0 = Yields want) /\
                  passes want k (S index) st1 = Some (rest, st') /\
                  seen = c0 :: rest).
  { intros Hv Hp.
    destruct (passes want k (S index) st0) as [[rest st'']|] eqn:Hp0;
      [|discriminate].
    injection Hp as <- <-. exists c, v, st0, rest.
    split; [reflexivity|]. split; [exact E|]. split; [exact Hv|].
    split; [exact Hp0 | reflexivity]. }
  destruct v as [|b|e]; [| |discriminate].
  - apply Hgo; [left; reflexivity | exact H].
  - destruct (Bool.eqb b want) eqn:Hb; [|discriminate].
    apply Bool.eqb_prop in Hb. subst b.
    apply Hgo; [right; reflexivity | exact H].
Qed.

Lemma passes_calls (want : bool) (k : nat) :
  forall (index : nat) (st st' : state) (seen : list pyval),
    passes want k index st = Some (seen, st') ->
    calls st' = calls st ++ thunks seen /\ length seen = k.
Proof.
  induction k as [|k IH]; intros index st st' seen H.
  - injection H as <- <-. simpl. rewrite app_nil_r. split; reflexivity.
  - apply passes_inv in H.
    destruct H as (c & v & st0 & rest & _ & He & _ & Hp & ->).
    destruct (IH _ _ _ _ Hp) as [Hc Hl].
    apply eval_condition_calls in He.
    change (c :: rest) with ([c] ++ rest).
    rewrite thunks_app, app_assoc, <- He, Hc. simpl. rewrite Hl.
    split; reflexivity.
Qed.

(** A passing turn counts in the tally when its entry is a condition. *)
Lemma passing_tally (want : bool) (c : pyval) (st st0 : state)
  (v : verdict) :
  eval_condition c st = (v, st0) ->
  v = Skipped \/ v = Yields want ->
  (if is_condition c then 1 else 0) =
  match v with Yields _ => 1 | _ => 0 end.
Proof.
  intros He Hv. apply eval_condition_kind in He.
  destruct Hv as [-> | ->]; [destruct He as [-> _] | rewrite He];
    reflexivity.
Qed.

(** Past [k] turns that pass with truthy results, [lazy_all] goes on at
    the next index, the tally raised by the conditions met. *)
Lemma iter_all_passes (k : nat) :
  forall (fuel index n : nat) (st st1 : state) (seen : list pyval),
    passes true k index st = Some (seen, st1) ->
    iter_all (k + fuel) index n st =
    iter_all fuel (index + k) (n + count_conditions seen) st1.
Proof.
  induction k as [|k IH]; intros fuel index n st st1 seen H.
  - injection H as <- <-. simpl. rewrite !Nat.add_0_r. reflexivity.
  - apply passes_inv in H.
    destruct H as (c & v & st0 & rest & Hn & He & Hv & Hp & ->).
    change (S k + fuel) with (S (k + fuel)).
    rewrite iter_all_step, Hn, He, count_conditions_cons.
    rewrite (passing_tally _ _ _ _ _ He Hv).
    replace (index + S k) with (S index + k) by lia.
    destruct Hv as [-> | ->]; rewrite (IH _ _ _ _ _ _ Hp); f_equal; lia.
Qed.

(** Past [k] turns that pass with falsy results, [lazy_any] goes on at
    the next index. *)
Lemma iter_any_passes (k : nat) :
  forall (fuel index : nat) (st st1 : state) (seen : list pyval),
    passes false k index st = Some (seen, st1) ->
    iter_any (k + fuel) index st = iter_any fuel (index + k) st1.
Proof.
  induction k as [|k IH]; intros fuel index st st1 seen H.
  - injection H as <- <-. simpl. rewrite Nat.add_0_r. reflexivity.
  - apply passes_inv in H.
    destruct H as (c & v & st0 & rest & Hn & He & Hv & Hp & ->).
    change (S k + fuel) with (S (k + fuel)).
    rewrite iter_any_step, Hn, He.
    replace (index + S k) with (S index + k) by lia.
    destruct Hv as [-> | ->]; exact (IH _ _ _ _ _ Hp).
Qed.

(** ** The three ways a loop ends *)

Lemma iter_all_runs_out (k fuel index n : nat) (st st' : state)
  (seen : list pyval) :
  runs_out true k index st seen st' -> k < fuel ->
  iter_all fuel index n st =
  Some (Return (0 <? n + count_conditions seen), st').
Proof.
  intros [Hp Hn] Hk. replace fuel with (k + S (fuel - S k)) by lia.
  rewrite (iter_all_passes _ _ _ _ _ _ _ Hp), iter_all_step, Hn.
  reflexivity.
Qed.

Lemma iter_all_stops (k fuel index n : nat) (st st' : state)
  (seen : list pyval) (c : pyval) :
  stops true k index st seen c st' -> k < fuel ->
  iter_all fuel index n st = Some (Return false, st').
Proof.
  intros (st1 & Hp & Hn & He) Hk.
  replace fuel with (k + S (fuel - S k)) by lia.
  rewrite (iter_all_passes _ _ _ _ _ _ _ Hp), iter_all_step, Hn, He.
  reflexivity.
Qed.

Lemma iter_all_fails (k fuel index n : nat) (st st' : state)
  (seen : list pyval) (c : pyval) (e : exn) :
  fails true k index st seen c e st' -> k < fuel ->
  iter_all fuel index n st = Some (Raise e, st').
Proof.
  intros (st1 & Hp & Hn & He) Hk.
  replace fuel with (k + S (fuel - S k)) by lia.
  rewrite (iter_all_passes _ _ _ _ _ _ _ Hp), iter_all_step, Hn, He.
  reflexivity.
Qed.

Lemma iter_any_runs_out (k fuel index : nat) (st st' : state)
  (seen : list pyval) :
  runs_out false k index st seen st' -> k < fuel ->
  iter_any fuel index st = Some (Return false, st').
Proof.
  intros [Hp Hn] Hk. replace fuel with (k + S (fuel - S k)) by lia.
  rewrite (iter_any_passes _ _ _ _ _ _ Hp), iter_any_step, Hn.
  reflexivity.
Qed.

Lemma iter_any_stops (k fuel index : nat) (st st' : state)
  (seen : list pyval) (c : pyval) :
  stops false k index st seen c st' -> k < fuel ->
  iter_any fuel index st = Some (Return true, st').
Proof.
  intros (st1 & Hp & Hn & He) Hk.
  replace fuel with (k + S (fuel - S k)) by lia.
  rewrite (iter_any_passes _ _ _ _ _ _ Hp), iter_any_step, Hn, He.
  reflexivity.
Qed.

Lemma iter_any_fails (k fuel index : nat) (st st' : state)
  (seen : list pyval) (c : pyval) (e : exn) :
  fails false k index st seen c e st' -> k < fuel ->
  iter_any fuel index st = Some (Raise e, st').
Proof.
  intros (st1 & Hp & Hn & He) Hk.
  replace fuel with (k + S (fuel - S k)) by lia.
  rewrite (iter_any_passes _ _ _ _ _ _ Hp), iter_any_step, Hn, He.
  reflexivity.
Qed.

(** A passing turn in front of a run. *)
Section Cons.

Variables (want : bool) (k index : nat) (st st0 st' : state).
Variables (c : pyval) (v : verdict) (seen : list pyval).
Hypothesis Hn : nth_error (the_list (world st)) index = Some c.
Hypothesis He : eval_condition c st = (v, st0).
Hypothesis Hv : v = Skipped \/ v = Yields want.

Lemma runs_out_cons :
  runs_out want k (S index) st0 seen st' ->
  runs_out want (S k) index st (c :: seen) st'.
Proof.
  intros [Hp Hend]. split.
  - exact (passes_cons _ _ _ _ _ _ _ _ _ Hn He Hv Hp).
  - replace (index + S k) with (S index + k) by lia. exact Hend.
Qed.

Lemma stops_cons (c' : pyval) :
  stops want k (S index) st0 seen c' st' ->
  stops want (S k) index st (c :: seen) c' st'.
Proof.
  intros (st1 & Hp & Hnext & Hc). exists st1. split; [|split].
  - exact (passes_cons _ _ _ _ _ _ _ _ _ Hn He Hv Hp).
  - replace (index + S k) with (S index + k) by lia. exact Hnext.
  - exact Hc.
Qed.

Lemma fails_cons (c' : pyval) (e : exn) :
  fails want k (S index) st0 seen c' e st' ->
  fails want (S k) index st (c :: seen) c' e st'.
Proof.
  intros (st1 & Hp & Hnext & Hc). exists st1. split; [|split].
  - exact (passes_cons _ _ _ _ _ _ _ _ _ Hn He Hv Hp).
  - replace (index + S k) with (S index + k) by lia. exact Hnext.
  - exact Hc.
Qed.

End Cons.

Lemma runs_out_now (want : bool) (index : nat) (st : state) :
  nth_error (the_list (world st)) index = None ->
  runs_out want 0 index st [] st.
Proof.
  intros Hn. split; [reflexivity|]. rewrite Nat.add_0_r. exact Hn.
Qed.

Lemma stops_now (want : bool) (index : nat) (st st' : state) (c : pyval) :
  nth_error (the_list (world st)) index = Some c ->
  eval_condition c st = (Yields (negb want), st') ->
  stops want 0 index st [] c st'.
Proof.
  intros Hn He. exists st. split; [reflexivity|]. rewrite Nat.add_0_r.
  split; assumption.
Qed.

Lemma fails_now (want : bool) (index : nat) (st st' : state) (c : pyval)
  (e : exn) :
  nth_error (the_list (world st)) index = Some c ->
  eval_condition c st = (Raises e, st') ->
  fails want 0 index st [] c e st'.
Proof.
  intros Hn He. exists st. split; [reflexivity|]. rewrite Nat.add_0_r.
  split; assumption.
Qed.

(** A run of [lazy_all] that ends has gone one of the three ways. *)
Lemma iter_all_ended (fuel : nat) :
  forall (index n : nat) (st : state) (r : outcome bool * state),
    iter_all fuel index n st = Some r -> all_ended fuel index n st r.
Proof.
  induction fuel as [|fuel IH]; intros index n st r H; [discriminate|].
  rewrite iter_all_step in H.
  destruct (nth_error (the_list (world st)) index) as [c|] eqn:Hn.
  - destruct (eval_condition c st) as [v st0] eqn:He.
    assert (Hgo : forall n', v = Skipped \/ v = Yields true ->
              n' = n + (if is_condition c then 1 else 0) ->
              iter_all fuel (S index) n' st0 = Some r ->
              all_ended (S fuel) index n st r).
    { intros n' Hv Hn' Hr.
      destruct (IH _ _ _ _ Hr) as (k & seen & Hk & Hcase).
      exists (S k), (c :: seen). split; [lia|].
      destruct Hcase as [[Hout Hres]|[[c' [Hs Hres]]|[c' [e [Hf Hres]]]]].
      - left. split.
        + exact (runs_out_cons _ _ _ _ _ _ _ _ _ Hn He Hv Hout).
        + rewrite Hres, count_conditions_cons, Hn'. do 2 f_equal. lia.
      - right. left. exists c'. split; [|exact Hres].
        exact (stops_cons _ _ _ _ _ _ _ _ _ Hn He Hv _ Hs).
      - right. right. exists c', e. split; [|exact Hres].
        exact (fails_cons _ _ _ _ _ _ _ _ _ Hn He Hv _ _ Hf). }
    destruct v as [|[|]|e].
    + apply (Hgo n); [left; reflexivity | | exact H].
      rewrite (passing_tally true _ _ _ _ He (or_introl eq_refl)). lia.
    + apply (Hgo (n + 1)); [right; reflexivity | | exact H].
      rewrite (passing_tally true _ _ _ _ He (or_intror eq_refl)).
      reflexivity.
    + injection H as <-. exists 0, []. split; [lia|]. right. left.
      exists c. split; [|reflexivity]. exact (stops_now true _ _ _ _ Hn He).
    + injection H as <-. exists 0, []. split; [lia|]. right. right.
      exists c, e. split; [|reflexivity].
      exact (fails_now true _ _ _ _ _ Hn He).
  - injection H as <-. exists 0, []. split; [lia|]. left. split.
    + exact (runs_out_now true _ _ Hn).
    + simpl. rewrite Nat.add_0_r. reflexivity.
Qed.

(** A run of [lazy_any] that ends has gone one of the three ways. *)
Lemma iter_any_ended (fuel : nat) :
  forall (index : nat) (st : state) (r : outcome bool * state),
    iter_any fuel index st = Some r -> any_ended fuel index st r.
Proof.
  induction fuel as [|fuel IH]; intros index st r H; [discriminate|].
  rewrite iter_any_step in H.
  destruct (nth_error (the_list (world st)) index) as [c|] eqn:Hn.
  - destruct (eval_condition c st) as [v st0] eqn:He.
    assert (Hgo : v = Skipped \/ v = Yields false ->
              iter_any fuel (S index) st0 = Some r ->
              any_ended (S fuel) index st r).
    { intros Hv Hr.
      destruct (IH _ _ _ Hr) as (k & seen & Hk & Hcase).
      exists (S k), (c :: seen). split; [lia|].
      destruct Hcase as [[Hout Hres]|[[c' [Hs Hres]]|[c' [e [Hf Hres]]]]].
      - left. split; [|exact Hres].
        exact (runs_out_cons _ _ _ _ _ _ _ _ _ Hn He Hv Hout).
      - right. left. exists c'. split; [|exact Hres].
        exact (stops_cons _ _ _ _ _ _ _ _ _ Hn He Hv _ Hs).
      - right. right. exists c', e. split; [|exact Hres].
        exact (fails_cons _ _ _ _ _ _ _ _ _ Hn He Hv _ _ Hf). }
    destruct v as [|[|]|e].
    + apply Hgo; [left; reflexivity | exact H].
    + injection H as <-. exists 0, []. split; [lia|]. right. left.
      exists c. split; [|reflexivity].
      exact (stops_now false _ _ _ _ Hn He).
    + apply Hgo; [right; reflexivity | exact H].
    + injection H as <-. exists 0, []. split; [lia|]. right. right.
      exists c, e. split; [|reflexivity].
      exact (fails_now false _ _ _ _ _ Hn He).
  - injection H as <-. exists 0, []. split; [lia|]. left.
    split; [|reflexivity]. exact (runs_out_now false _ _ Hn).
Qed.

(** ** More on turns that pass *)

Lemma passes_snoc (want : bool) (k : nat) :
  forall (index : nat) (st st1 st2 : state) (seen : list pyval)
         (c : pyval) (v : verdict),
    passes want k index st = Some (seen, st1) ->
    nth_error (the_list (world st1)) (index + k) = Some c ->
    eval_condition c st1 = (v, st2) ->
    v = Skipped \/ v = Yields want ->
    passes want (S k) index st = Some (seen ++ [c], st2).
Proof.
  induction k as [|k IH]; intros index st st1 st2 seen c v Hp Hn He Hv.
  - injection Hp as <- <-. rewrite Nat.add_0_r in Hn.
    exact (passes_cons _ 0 _ _ _ _ _ _ _ Hn He Hv eq_refl).
  - apply passes_inv in Hp.
    destruct Hp as (c0 & v0 & st0 & rest & Hn0 & He0 & Hv0 & Hp0 & ->).
    replace (index + S k) with (S index + k) in Hn by lia.
    exact (passes_cons _ _ _ _ _ _ _ _ _ Hn0 He0 Hv0
             (IH _ _ _ _ _ _ _ Hp0 Hn He Hv)).
Qed.

Lemma skipn_nth_error (l : list pyval) :
  forall (i : nat) (c : pyval),
    nth_error l i = Some c -> skipn i l = c :: skipn (S i) l.
Proof.
  induction l as [|x l IH]; intros [|i] c H; try discriminate.
  - injection H as ->. reflexivity.
  - exact (IH _ _ H).
Qed.

(** Entries that are no conditions pass, whatever is looked for, and
    leave the state as it is. *)
Lemma passes_skipped (want : bool) (l : list pyval) (st : state) :
  the_list (world st) = l ->
  (forall c, In c l -> is_condition c = false) ->
  forall k index,
    index + k = length l ->
    passes want k index st = Some (skipn index l, st).
Proof.
  intros Hl Hskip. induction k as [|k IH]; intros index Hlen.
  - rewrite skipn_all2 by lia. reflexivity.
  - destruct (nth_error l index) as [c|] eqn:Hn.
    + rewrite (skipn_nth_error _ _ _ Hn).
      apply (passes_cons want k index st st st c Skipped).
      * rewrite Hl. exact Hn.
      * apply eval_condition_skipped, Hskip.
        eapply nth_error_In. exact Hn.
      * left. reflexivity.
      * apply IH. lia.
    + apply nth_error_None in Hn. lia.
Qed.

Lemma runs_out_skipped (want : bool) (st : state) :
  (forall c, In c (the_list (world st)) -> is_condition c = false) ->
  runs_out want (length (the_list (world st))) 0 st
    (the_list (world st)) st.
Proof.
  intros Hskip. split.
  - exact (passes_skipped want _ st eq_refl Hskip _ 0 eq_refl).
  - apply nth_error_None. apply Nat.le_refl.
Qed.

(** ** [lazy_all] *)

(** C1. If the turns of the loop up to some entry all pass with truthy
    results (every evaluated condition before it yields a truthy result)
    and that entry, a literal or a thunk, yields a falsy one, [lazy_all]
    returns [False] in the state that evaluation left: nothing is
    evaluated after it, and the thunks called are those of the entries met
    up to it, in the order they were met.  The entries are those the loop
    finds when it reaches them, whatever the thunks did to the list in
    between. *)
Theorem lazy_all_short_circuits
  (k fuel : nat) (seen : list pyval) (c : pyval) (st st1 st2 : state) :
  passes true k 0 st = Some (seen, st1) ->
  nth_error (the_list (world st1)) k = Some c ->
  eval_condition c st1 = (Yields false, st2) ->
  k < fuel ->
  lazy_all fuel st = Some (Return false, st2) /\
  calls st2 = calls st ++ thunks (seen ++ [c]).
Proof.
  intros Hp Hn He Hk. split.
  - apply (iter_all_stops k fuel 0 0 st st2 seen c); [|exact Hk].
    exists st1. split; [exact Hp | split; [exact Hn | exact He]].
  - rewrite thunks_app, app_assoc.
    rewrite <- (proj1 (passes_calls _ _ _ _ _ _ Hp)).
    exact (eval_condition_calls _ _ _ _ He).
Qed.

(** C2. When the loop runs to the end of the list and no evaluated
    condition yields a falsy result, [lazy_all] returns, and what it
    returns is [True] exactly when at least one condition (a literal or a
    thunk) was evaluated on the way; on the empty list and on a list of
    skipped values only it returns [False], with nothing called. *)
Theorem lazy_all_completes (fuel : nat) (st : state) :
  (forall k seen st',
     passes true k 0 st = Some (seen, st') ->
     nth_error (the_list (world st')) k = None ->
     k < fuel ->
     exists b, lazy_all fuel st = Some (Return b, st') /\
               (b = true <-> exists c, In c seen /\ is_condition c = true)) /\
  (the_list (world st) = [] -> 0 < fuel ->
   lazy_all fuel st = Some (Return false, st)) /\
  ((forall c, In c (the_list (world st)) -> is_condition c = false) ->
   length (the_list (world st)) < fuel ->
   lazy_all fuel st = Some (Return false, st)).
Proof.
  assert (Hskipped :
    (forall c, In c (the_list (world st)) -> is_condition c = false) ->
    length (the_list (world st)) < fuel ->
    lazy_all fuel st = Some (Return false, st)).
  { intros Hskip Hfuel. unfold lazy_all.
    rewrite (iter_all_runs_out _ fuel 0 0 st st _
               (runs_out_skipped true st Hskip) Hfuel).
    rewrite (proj2 (count_conditions_none _) Hskip). reflexivity. }
  split; [|split].
  - intros k seen st' Hp Hn Hk. exists (0 <? count_conditions seen). split.
    + exact (iter_all_runs_out k fuel 0 0 st st' seen (conj Hp Hn) Hk).
    + rewrite Nat.ltb_lt. apply count_conditions_pos.
  - intros Hnil Hfuel. apply Hskipped.
    + rewrite Hnil. intros c [].
    + rewrite Hnil. exact Hfuel.
  - exact Hskipped.
Qed.

(** ** [lazy_any] *)

(** C3. [lazy_any] returns [True] exactly when, going through the list in
    order, the loop meets a condition that yields a truthy result after
    conditions that all yielded falsy ones.  It returns [False] when the
    loop runs to the end of the list with every evaluated condition
    yielding a falsy result; in particular on the empty list and on a list
    of skipped values only. *)
Theorem lazy_any_returns (fuel : nat) (st : state) :
  (forall st',
     lazy_any fuel st = Some (Return true, st') <->
     exists k seen c, k < fuel /\ stops false k 0 st seen c st') /\
  (forall k seen st',
     passes false k 0 st = Some (seen, st') ->
     nth_error (the_list (world st')) k = None ->
     k < fuel ->
     lazy_any fuel st = Some (Return false, st')) /\
  (the_list (world st) = [] -> 0 < fuel ->
   lazy_any fuel st = Some (Return false, st)) /\
  ((forall c, In c (the_list (world st)) -> is_condition c = false) ->
   length (the_list (world st)) < fuel ->
   lazy_any fuel st = Some (Return false, st)).
Proof.
  assert (Hskipped :
    (forall c, In c (the_list (world st)) -> is_condition c = false) ->
    length (the_list (world st)) < fuel ->
    lazy_any fuel st = Some (Return false, st)).
  { intros Hskip Hfuel.
    exact (iter_any_runs_out _ fuel 0 st st _
             (runs_out_skipped false st Hskip) Hfuel). }
  split; [|split; [|split]].
  - intros st'. split.
    + intros H. destruct (iter_any_ended _ _ _ _ H) as (k & seen & Hk & Hc).
      simpl in Hc.
      destruct Hc as [[_ Hres]|[[c [Hs _]]|[c [e [_ Hres]]]]];
        try discriminate.
      exists k, seen, c. split; assumption.
    + intros (k & seen & c & Hk & Hs).
      exact (iter_any_stops k fuel 0 st st' seen c Hs Hk).
  - intros k seen st' Hp Hn Hk.
    exact (iter_any_runs_out k fuel 0 st st' seen (conj Hp Hn) Hk).
  - intros Hnil Hfuel. apply Hskipped.
    + rewrite Hnil. intros c [].
    + rewrite Hnil. exact Hfuel.
  - exact Hskipped.
Qed.


(** ** Both functions *)

Lemma thunks_skipped (c : pyval) : is_condition c = false -> thunks [c] = [].
Proof. destruct c; try discriminate; reflexivity. Qed.


(** The values whose truth test runs no user code, and those among them
    that are falsy. *)
Lemma truth_of_builtins (v : pyval) (st : state) :
  (forall o, v <> VObject o) ->
  exists b, truth v st = (Return b, st) /\
    (b = false <->
     v = VNone \/ v = VBool false \/ v = VInt 0 \/ v = VStr EmptyString \/
     v = VList [] \/ v = VTuple [] \/ v = VOther false).
Proof.
  intros Hv.
  destruct v as [| b | z | s | items | items | f | g | t | o]; simpl.
  - exists false. split; [reflexivity|]. split; [left|]; reflexivity.
  - exists b. split; [reflexivity|]. split.
    + intros ->. right. left. reflexivity.
    + intros [H|[H|[H|[H|[H|[H|H]]]]]]; try discriminate.
      injection H as ->. reflexivity.
  - exists (negb (z =? 0)%Z). split; [reflexivity|]. split.
    + intros H. right. right. left. f_equal. apply Z.eqb_eq.
      destruct (z =? 0)%Z; [reflexivity | discriminate].
    + intros [H|[H|[H|[H|[H|[H|H]]]]]]; try discriminate.
      injection H as ->. reflexivity.
  - exists (negb (String.eqb s EmptyString)). split; [reflexivity|]. split.
    + intros H. do 3 right. left.
      destruct s; [reflexivity | discriminate].
    + intros [H|[H|[H|[H|[H|[H|H]]]]]]; try discriminate.
      injection H as ->. reflexivity.
  - exists (match items with [] => false | _ :: _ => true end).
    split; [reflexivity|]. split.
    + intros H. do 4 right. left.
      destruct items; [reflexivity | discriminate].
    + intros [H|[H|[H|[H|[H|[H|H]]]]]]; try discriminate.
      injection H as ->. reflexivity.
  - exists (match items with [] => false | _ :: _ => true end).
    split; [reflexivity|]. split.
    + intros H. do 5 right. left.
      destruct items; [reflexivity | discriminate].
    + intros [H|[H|[H|[H|[H|[H|H]]]]]]; try discriminate.
      injection H as ->. reflexivity.
  - exists true. split; [reflexivity|]. split; [discriminate|].
    intros [H|[H|[H|[H|[H|[H|H]]]]]]; discriminate.
  - exists true. split; [reflexivity|]. split; [discriminate|].
    intros [H|[H|[H|[H|[H|[H|H]]]]]]; discriminate.
  - exists t. split; [reflexivity|]. split.
    + intros ->. do 6 right. reflexivity.
    + intros [H|[H|[H|[H|[H|[H|H]]]]]]; try discriminate.
      injection H as ->. reflexivity.
  - destruct (Hv o eq_refl).
Qed.


(** C7. A thunk that raises when the loop reaches it ends either function
    with that very exception, in the state the raising call left: the
    thunk is called once, and nothing after it is evaluated. *)
Theorem thunk_exception_propagates
  (k fuel : nat) (seen : list pyval) (f : fid) (st st1 : state) (e : exn)
  (w' : W) :
  nth_error (the_list (world st1)) k = Some (VFunc f) ->
  fenv f (world st1) = (Raise e, w') ->
  k < fuel ->
  let st2 := {| world := w'; calls := calls st1 ++ [f] |} in
  (passes true k 0 st = Some (seen, st1) ->
   lazy_all fuel st = Some (Raise e, st2) /\
   calls st2 = calls st ++ thunks seen ++ [f]) /\
  (passes false k 0 st = Some (seen, st1) ->
   lazy_any fuel st = Some (Raise e, st2) /\
   calls st2 = calls st ++ thunks seen ++ [f]).
Proof.
  intros Hn Hf Hk st2.
  assert (He : eval_condition (VFunc f) st1 = (Raises e, st2)).
  { simpl. unfold call. rewrite Hf. reflexivity. }
  assert (Hcalls : forall want, passes want k 0 st = Some (seen, st1) ->
            calls st2 = calls st ++ thunks seen ++ [f]).
  { intros want Hp. rewrite app_assoc.
    rewrite <- (proj1 (passes_calls _ _ _ _ _ _ Hp)). reflexivity. }
  split; intros Hp; (split; [|exact (Hcalls _ Hp)]).
  - apply (iter_all_fails k fuel 0 0 st st2 seen (VFunc f) e); [|exact Hk].
    exists st1. split; [exact Hp | split; [exact Hn | exact He]].
  - apply (iter_any_fails k fuel 0 st st2 seen (VFunc f) e); [|exact Hk].
    exists st1. split; [exact Hp | split; [exact Hn | exact He]].
Qed.

(** ** What a run does to the world *)

Lemma truth_world (v : pyval) (st st' : state) :
  world st = world st' ->
  fst (truth v st) = fst (truth v st') /\
  world (snd (truth v st)) = world (snd (truth v st')).
Proof.
  intros Hw. destruct v; try (split; [reflexivity | exact Hw]).
  simpl. rewrite <- Hw. destruct (oenv o (world st)) as [r w'].
  split; reflexivity.
Qed.

(** What evaluating an entry gives, and the world it leaves, depend on
    the world it finds only, not on the calls made before. *)
Lemma eval_condition_world_only (c : pyval) (st st' : state) :
  world st = world st' ->
  fst (eval_condition c st) = fst (eval_condition c st') /\
  world (snd (eval_condition c st)) = world (snd (eval_condition c st')).
Proof.
  intros Hw.
  destruct c as [| b | z | s | items | items | f | g | t | o];
    try (split; [reflexivity | exact Hw]).
  cbn [eval_condition]. unfold call. rewrite <- Hw.
  destruct (fenv f (world st)) as [[x|e] w']; [|split; reflexivity].
  destruct (truth_world x {| world := w'; calls := calls st ++ [f] |}
              {| world := w'; calls := calls st' ++ [f] |} eq_refl)
    as [Hf Hs].
  destruct (truth x {| world := w'; calls := calls st ++ [f] |})
    as [o1 s1].
  destruct (truth x {| world := w'; calls := calls st' ++ [f] |})
    as [o2 s2].
  simpl in Hf, Hs. subst o2.
  destruct o1; split; [reflexivity | exact Hs | reflexivity | exact Hs].
Qed.

Lemma eval_thunk_world (f : fid) (st : state) :
  world (snd (eval_condition (VFunc f) st)) = thunk_effect f (world st).
Proof.
  apply eval_condition_world_only. reflexivity.
Qed.

Lemma replay_app (cs1 cs2 : list fid) (w : W) :
  replay (cs1 ++ cs2) w = replay cs2 (replay cs1 w).
Proof. apply fold_left_app. Qed.

(** Evaluating an entry changes the world as its thunk does, if it is
    one, and not at all otherwise. *)
Lemma eval_condition_world (c : pyval) (st st' : state) (v : verdict) :
  eval_condition c st = (v, st') ->
  world st' = replay (thunks [c]) (world st).
Proof.
  intros H.
  destruct c as [| b | z | s | items | items | f | g | t | o];
    try (injection H as _ <-; reflexivity).
  pose proof (eval_thunk_world f st) as Hw. rewrite H in Hw. exact Hw.
Qed.

Lemma passes_world (want : bool) (k : nat) :
  forall (index : nat) (st st' : state) (seen : list pyval),
    passes want k index st = Some (seen, st') ->
    world st' = replay (thunks seen) (world st).
Proof.
  induction k as [|k IH]; intros index st st' seen H.
  - injection H as <- <-. reflexivity.
  - apply passes_inv in H.
    destruct H as (c & v & st0 & rest & _ & He & _ & Hp & ->).
    change (c :: rest) with ([c] ++ rest).
    rewrite thunks_app, replay_app, <- (eval_condition_world _ _ _ _ He).
    exact (IH _ _ _ _ Hp).
Qed.

(** A run that ends after passing turns and one last entry. *)
Lemma replayed_last (want : bool) (k index : nat) (st st1 st' : state)
  (seen : list pyval) (c : pyval) (v : verdict) (o : outcome bool) :
  passes want k index st = Some (seen, st1) ->
  eval_condition c st1 = (v, st') ->
  replayed st (o, st').
Proof.
  intros Hp He. exists (thunks (seen ++ [c])). simpl. split.
  - rewrite thunks_app, app_assoc.
    rewrite <- (proj1 (passes_calls _ _ _ _ _ _ Hp)).
    exact (eval_condition_calls _ _ _ _ He).
  - rewrite thunks_app, replay_app, <- (passes_world _ _ _ _ _ _ Hp).
    exact (eval_condition_world _ _ _ _ He).
Qed.

Lemma replayed_passes (want : bool) (k index : nat) (st st' : state)
  (seen : list pyval) (o : outcome bool) :
  passes want k index st = Some (seen, st') -> replayed st (o, st').
Proof.
  intros Hp. exists (thunks seen). simpl. split.
  - exact (proj1 (passes_calls _ _ _ _ _ _ Hp)).
  - exact (passes_world _ _ _ _ _ _ Hp).
Qed.

Lemma all_ended_replayed (fuel index n : nat) (st : state)
  (r : outcome bool * state) :
  all_ended fuel index n st r -> replayed st r.
Proof.
  destruct r as [o st']. simpl.
  intros (k & seen & _ & [[[Hp _] _]|[[c [(st1 & Hp & _ & He) _]]
                                      |[c [e [(st1 & Hp & _ & He) _]]]]]).
  - exact (replayed_passes _ _ _ _ _ _ o Hp).
  - exact (replayed_last _ _ _ _ _ _ _ _ _ o Hp He).
  - exact (replayed_last _ _ _ _ _ _ _ _ _ o Hp He).
Qed.

Lemma any_ended_replayed (fuel index : nat) (st : state)
  (r : outcome bool * state) :
  any_ended fuel index st r -> replayed st r.
Proof.
  destruct r as [o st']. simpl.
  intros (k & seen & _ & [[[Hp _] _]|[[c [(st1 & Hp & _ & He) _]]
                                      |[c [e [(st1 & Hp & _ & He) _]]]]]).
  - exact (replayed_passes _ _ _ _ _ _ o Hp).
  - exact (replayed_last _ _ _ _ _ _ _ _ _ o Hp He).
  - exact (replayed_last _ _ _ _ _ _ _ _ _ o Hp He).
Qed.

(** ** Lists that the thunks leave alone *)

Section Keep.

Variable A : Type.
Variable part : W -> A.

Lemma eval_condition_keeps (l : list pyval) (c : pyval) (st : state) :
  thunks_keep part l -> In c l ->
  part (world (snd (eval_condition c st))) = part (world st).
Proof.
  intros Hk Hin.
  destruct c as [| b | z | s | items | items | f | g | t | o];
    try reflexivity.
  rewrite eval_thunk_world. exact (Hk f Hin (world st)).
Qed.

Lemma scan_all_keeps (l : list pyval) :
  thunks_keep part l ->
  forall (n : nat) (st : state),
    part (world (snd (scan_all l n st))) = part (world st).
Proof.
  induction l as [|c l IH]; intros Hk n st; [reflexivity|].
  assert (Hl : thunks_keep part l).
  { intros f Hf. apply Hk. right. exact Hf. }
  pose proof (eval_condition_keeps (c :: l) c st Hk (or_introl eq_refl))
    as Hc.
  cbn [scan_all].
  destruct (eval_condition c st) as [[|[|]|e] st0]; simpl in Hc;
    try exact Hc; rewrite (IH Hl); exact Hc.
Qed.

Lemma scan_any_keeps (l : list pyval) :
  thunks_keep part l ->
  forall st : state,
    part (world (snd (scan_any l st))) = part (world st).
Proof.
  induction l as [|c l IH]; intros Hk st; [reflexivity|].
  assert (Hl : thunks_keep part l).
  { intros f Hf. apply Hk. right. exact Hf. }
  pose proof (eval_condition_keeps (c :: l) c st Hk (or_introl eq_refl))
    as Hc.
  cbn [scan_any].
  destruct (eval_condition c st) as [[|[|]|e] st0]; simpl in Hc;
    try exact Hc; rewrite (IH Hl); exact Hc.
Qed.

End Keep.

(** As long as the thunks leave the list alone, the turns of the loop are
    the scan of the list as it was at the call, and the fuel needed is the
    length of the list and one. *)
Lemma iter_all_scans (l : list pyval) :
  thunks_keep the_list l ->
  forall (fuel index n : nat) (st : state),
    the_list (world st) = l ->
    length l - index < fuel ->
    iter_all fuel index n st = Some (scan_all (skipn index l) n st).
Proof.
  intros Hk. induction fuel as [|fuel IH]; intros index n st Hl Hfuel;
    [lia|].
  rewrite iter_all_step, Hl.
  destruct (nth_error l index) as [c|] eqn:E.
  - assert (Hin : In c l) by (eapply nth_error_In; exact E).
    assert (Hlt : index < length l).
    { apply nth_error_Some. rewrite E. discriminate. }
    rewrite (skipn_nth_error _ _ _ E). cbn [scan_all].
    pose proof (eval_condition_keeps _ the_list l c st Hk Hin) as Hc.
    destruct (eval_condition c st) as [[|[|]|e] st0]; simpl in Hc;
      try reflexivity; apply IH; try lia; rewrite Hc; exact Hl.
  - apply nth_error_None in E. rewrite (skipn_all2 _ E). reflexivity.
Qed.

Lemma iter_any_scans (l : list pyval) :
  thunks_keep the_list l ->
  forall (fuel index : nat) (st : state),
    the_list (world st) = l ->
    length l - index < fuel ->
    iter_any fuel index st = Some (scan_any (skipn index l) st).
Proof.
  intros Hk. induction fuel as [|fuel IH]; intros index st Hl Hfuel; [lia|].
  rewrite iter_any_step, Hl.
  destruct (nth_error l index) as [c|] eqn:E.
  - assert (Hin : In c l) by (eapply nth_error_In; exact E).
    assert (Hlt : index < length l).
    { apply nth_error_Some. rewrite E. discriminate. }
    rewrite (skipn_nth_error _ _ _ E). cbn [scan_any].
    pose proof (eval_condition_keeps _ the_list l c st Hk Hin) as Hc.
    destruct (eval_condition c st) as [[|[|]|e] st0]; simpl in Hc;
      try reflexivity; apply IH; try lia; rewrite Hc; exact Hl.
  - apply nth_error_None in E. rewrite (skipn_all2 _ E). reflexivity.
Qed.

Lemma lazy_all_scans (l : list pyval) (fuel : nat) (st : state) :
  thunks_keep the_list l -> the_list (world st) = l -> length l < fuel ->
  lazy_all fuel st = Some (scan_all l 0 st).
Proof.
  intros Hk Hl Hfuel. unfold lazy_all.
  rewrite (iter_all_scans l Hk fuel 0 0 st Hl); [reflexivity | lia].
Qed.

Lemma lazy_any_scans (l : list pyval) (fuel : nat) (st : state) :
  thunks_keep the_list l -> the_list (world st) = l -> length l < fuel ->
  lazy_any fuel st = Some (scan_any l st).
Proof.
  intros Hk Hl Hfuel. unfold lazy_any.
  rewrite (iter_any_scans l Hk fuel 0 st Hl); [reflexivity | lia].
Qed.


(** ** Lists without thunks *)

Lemma thunks_in (f : fid) (l : list pyval) :
  In (VFunc f) l -> In f (thunks l).
Proof.
  induction l as [|c l IH]; [intros [] | intros [H|H]].
  - subst c. left. reflexivity.
  - specialize (IH H). destruct c; try exact IH. right. exact IH.
Qed.

Lemma thunk_free_keeps (A : Type) (part : W -> A) (l : list pyval) :
  thunks l = [] -> thunks_keep part l.
Proof.
  intros Hl f Hf. apply thunks_in in Hf. rewrite Hl in Hf. destruct Hf.
Qed.

Lemma scan_all_thunk_free (l : list pyval) :
  thunks l = [] ->
  forall (n : nat) (st : state),
    scan_all l n st =
    (Return (builtin_all (booleans l) && (0 <? n + count_conditions l)), st).
Proof.
  induction l as [|c l IH]; intros Hl n st.
  - simpl. rewrite Nat.add_0_r. reflexivity.
  - rewrite count_conditions_cons.
    destruct c as [| b | z | s | items | items | f | g | t | o];
      try discriminate; simpl in Hl |- *; try (apply IH; exact Hl).
    destruct b; simpl; [|reflexivity].
    rewrite (IH Hl).
    replace (n + 1 + count_conditions l) with (n + S (count_conditions l))
      by lia.
    reflexivity.
Qed.

Lemma scan_any_thunk_free (l : list pyval) :
  thunks l = [] ->
  forall st : state,
    scan_any l st = (Return (builtin_any (booleans l)), st).
Proof.
  induction l as [|c l IH]; intros Hl st; [reflexivity|].
  destruct c as [| b | z | s | items | items | f | g | t | o];
    try discriminate; simpl in Hl |- *; try (apply IH; exact Hl).
  destruct b; [reflexivity | apply IH; exact Hl].
Qed.

Lemma booleans_map (bs : list bool) :
  thunks (map VBool bs) = [] /\ booleans (map VBool bs) = bs /\
  count_conditions (map VBool bs) = length bs.
Proof.
  induction bs as [|b bs (IH1 & IH2 & IH3)]; [repeat split|].
  simpl. rewrite count_conditions_cons, IH2, IH3.
  split; [exact IH1 | split; reflexivity].
Qed.

(** C9. On a list of boolean literals [lazy_any] is the builtin [any], and
    on a list of boolean literals that is not empty [lazy_all] is the
    builtin [all]; on the empty list [lazy_all] gives [False] where [all]
    gives [True].  Nothing is called and the state stays as it is. *)
Theorem booleans_as_builtins (bs : list bool) (fuel : nat) (st : state) :
  the_list (world st) = map VBool bs ->
  length bs < fuel ->
  lazy_any fuel st = Some (Return (builtin_any bs), st) /\
  (bs <> [] -> lazy_all fuel st = Some (Return (builtin_all bs), st)) /\
  (bs = [] -> lazy_all fuel st = Some (Return false, st)) /\
  builtin_all [] = true.
Proof.
  intros Hl Hfuel. destruct (booleans_map bs) as (Ht & Hb & Hc).
  assert (Hlen : length (map VBool bs) < fuel).
  { rewrite length_map. exact Hfuel. }
  assert (Hall : lazy_all fuel st =
                 Some (Return (builtin_all bs && (0 <? length bs)), st)).
  { rewrite (lazy_all_scans _ fuel st (thunk_free_keeps _ the_list _ Ht)
               Hl Hlen).
    rewrite (scan_all_thunk_free _ Ht), Hb, Hc. reflexivity. }
  split; [|split; [|split; [|reflexivity]]].
  - rewrite (lazy_any_scans _ fuel st (thunk_free_keeps _ the_list _ Ht)
               Hl Hlen).
    rewrite (scan_any_thunk_free _ Ht), Hb. reflexivity.
  - intros Hne. rewrite Hall. destruct bs as [|b bs];
      [destruct Hne; reflexivity|].
    simpl. rewrite andb_true_r. reflexivity.
  - intros ->. rewrite Hall. reflexivity.
Qed.


(** * How a run ends *)


(** X2. [lazy_all] returns [True] exactly when the loop ran to the end of
    the list, met at least one condition, and every condition it met
    yielded a truthy result; every thunk it met was then called, once and
    in the order met. *)
Theorem lazy_all_true (fuel : nat) (st st' : state) :
  lazy_all fuel st = Some (Return true, st') <->
  exists k seen,
    k < fuel /\ runs_out true k 0 st seen st' /\
    0 < count_conditions seen /\
    calls st' = calls st ++ thunks seen.
Proof.
  split.
  - intros H. destruct (iter_all_ended _ _ _ _ _ H) as (k & seen & Hk & Hc).
    simpl in Hc.
    destruct Hc as [[Hout Hres]|[[c [_ Hres]]|[c [e [_ Hres]]]]];
      try discriminate.
    exists k, seen. split; [exact Hk|]. split; [exact Hout|]. split.
    + injection Hres as Hres. symmetry in Hres.
      apply Nat.ltb_lt in Hres. exact Hres.
    + exact (proj1 (passes_calls _ _ _ _ _ _ (proj1 Hout))).
  - intros (k & seen & Hk & Hout & Hpos & _). unfold lazy_all.
    rewrite (iter_all_runs_out k fuel 0 0 st st' seen Hout Hk). simpl.
    apply Nat.ltb_lt in Hpos. rewrite Hpos. reflexivity.
Qed.

(** X3. [lazy_any] returns [False] exactly when the loop ran to the end of
    the list and every condition it met yielded a falsy result (none met
    among them); every thunk it met was then called, once and in the
    order met. *)
Theorem lazy_any_false (fuel : nat) (st st' : state) :
  lazy_any fuel st = Some (Return false, st') <->
  exists k seen,
    k < fuel /\ runs_out false k 0 st seen st' /\
    calls st' = calls st ++ thunks seen.
Proof.
  split.
  - intros H. destruct (iter_any_ended _ _ _ _ H) as (k & seen & Hk & Hc).
    simpl in Hc.
    destruct Hc as [[Hout _]|[[c [_ Hres]]|[c [e [_ Hres]]]]];
      try discriminate.
    exists k, seen. split; [exact Hk|]. split; [exact Hout|].
    exact (proj1 (passes_calls _ _ _ _ _ _ (proj1 Hout))).
  - intros (k & seen & Hk & Hout & _).
    exact (iter_any_runs_out k fuel 0 st st' seen Hout Hk).
Qed.

(** X4. [lazy_all] returns [False] in two cases and no other: the loop
    met a condition with a falsy result after conditions with truthy
    ones, or it ran to the end of the list without meeting any
    condition. *)
Theorem lazy_all_false (fuel : nat) (st st' : state) :
  lazy_all fuel st = Some (Return false, st') <->
  exists k seen,
    k < fuel /\
    ((exists c, stops true k 0 st seen c st') \/
     (runs_out true k 0 st seen st' /\ count_conditions seen = 0)).
Proof.
  split.
  - intros H. destruct (iter_all_ended _ _ _ _ _ H) as (k & seen & Hk & Hc).
    simpl in Hc. exists k, seen. split; [exact Hk|].
    destruct Hc as [[Hout Hres]|[[c [Hs _]]|[c [e [_ Hres]]]]];
      try discriminate.
    + right. split; [exact Hout|]. injection Hres as Hres.
      symmetry in Hres. apply Nat.ltb_ge in Hres. lia.
    + left. exists c. exact Hs.
  - intros (k & seen & Hk & [[c Hs]|[Hout H0]]); unfold lazy_all.
    + exact (iter_all_stops k fuel 0 0 st st' seen c Hs Hk).
    + rewrite (iter_all_runs_out k fuel 0 0 st st' seen Hout Hk), H0.
      reflexivity.
Qed.


(** ** The two functions side by side *)

(** Among conditions that all yield one truthiness, the first one stops
    the loop that looks for that truthiness. *)
Lemma first_condition_stops (want : bool) (k : nat) :
  forall (index : nat) (st st' : state) (seen : list pyval),
    passes want k index st = Some (seen, st') ->
    0 < count_conditions seen ->
    exists j seen0 c st2,
      j < k /\ stops (negb want) j index st seen0 c st2.
Proof.
  induction k as [|k IH]; intros index st st' seen Hp Hpos.
  - injection Hp as <- <-. unfold count_conditions in Hpos. simpl in Hpos.
    lia.
  - apply passes_inv in Hp.
    destruct Hp as (c & v & st0 & rest & Hn & He & Hv & Hp & ->).
    destruct Hv as [-> | ->].
    + destruct (eval_condition_kind _ _ _ _ He) as [Hc ->].
      rewrite count_conditions_cons, Hc in Hpos.
      destruct (IH _ _ _ _ Hp Hpos) as (j & seen0 & c' & st2 & Hj & Hs).
      exists (S j), (c :: seen0), c', st2. split; [lia|].
      exact (stops_cons (negb want) _ _ _ _ _ _ _ _ Hn He
               (or_introl eq_refl) _ Hs).
    + exists 0, [], c, st0. split; [lia|].
      apply stops_now; [exact Hn|]. rewrite negb_involutive. exact He.
Qed.

(** Turns that meet no condition pass whatever is looked for. *)
Lemma passes_no_condition (want want' : bool) (k : nat) :
  forall (index : nat) (st st' : state) (seen : list pyval),
    passes want k index st = Some (seen, st') ->
    count_conditions seen = 0 ->
    passes want' k index st = Some (seen, st').
Proof.
  induction k as [|k IH]; intros index st st' seen Hp H0.
  - exact Hp.
  - apply passes_inv in Hp.
    destruct Hp as (c & v & st0 & rest & Hn & He & Hv & Hp & ->).
    rewrite count_conditions_cons in H0.
    pose proof (eval_condition_kind _ _ _ _ He) as Hk.
    destruct Hv as [-> | ->].
    + apply (passes_cons want' k index st st0 st' c Skipped rest Hn He
               (or_introl eq_refl)).
      apply (IH _ _ _ _ Hp). destruct Hk as [Hc _]. rewrite Hc in H0.
      exact H0.
    + simpl in Hk. rewrite Hk in H0. discriminate.
Qed.

(** X6. Whenever [lazy_all] returns [True], [lazy_any] returns [True] on
    the same list from the same state, and whenever [lazy_any] returns
    [False] so does [lazy_all] -- the empty list included, on which the
    builtins [all] and [any] disagree. *)
Theorem all_implies_any (fuel : nat) (st st' : state) :
  (lazy_all fuel st = Some (Return true, st') ->
   exists st2, lazy_any fuel st = Some (Return true, st2)) /\
  (lazy_any fuel st = Some (Return false, st') ->
   exists st2, lazy_all fuel st = Some (Return false, st2)).
Proof.
  split; intros H.
  - destruct (iter_all_ended _ _ _ _ _ H) as (k & seen & Hk & Hc).
    simpl in Hc.
    destruct Hc as [[[Hp _] Hres]|[[c [_ Hres]]|[c [e [_ Hres]]]]];
      try discriminate.
    injection Hres as Hres. symmetry in Hres. apply Nat.ltb_lt in Hres.
    destruct (first_condition_stops true k 0 st st' seen Hp Hres)
      as (j & seen0 & c & st2 & Hj & Hs).
    exists st2. apply (iter_any_stops j fuel 0 st st2 seen0 c Hs). lia.
  - destruct (iter_any_ended _ _ _ _ H) as (k & seen & Hk & Hc).
    simpl in Hc.
    destruct Hc as [[[Hp Hn] _]|[[c [_ Hres]]|[c [e [_ Hres]]]]];
      try discriminate.
    destruct (Nat.eq_dec (count_conditions seen) 0) as [H0|Hne].
    + exists st'. unfold lazy_all.
      rewrite (iter_all_runs_out k fuel 0 0 st st' seen
                 (conj (passes_no_condition false true _ _ _ _ _ Hp H0) Hn)
                 Hk).
      rewrite H0. reflexivity.
    + assert (Hpos : 0 < count_conditions seen) by lia.
      destruct (first_condition_stops false k 0 st st' seen Hp Hpos)
        as (j & seen0 & c & st2 & Hj & Hs).
      exists st2. apply (iter_all_stops j fuel 0 0 st st2 seen0 c Hs). lia.
Qed.

(** ** One condition *)

Lemma scan_all_no_condition (l : list pyval) (n : nat) (st : state) :
  count_conditions l = 0 -> scan_all l n st = (Return (0 <? n), st).
Proof.
  revert n. induction l as [|c l IH]; intros n H0; [reflexivity|].
  rewrite count_conditions_cons in H0.
  destruct (is_condition c) eqn:Hc; [discriminate|].
  cbn [scan_all]. rewrite (eval_condition_skipped c st Hc). apply IH.
  exact H0.
Qed.

Lemma scan_any_no_condition (l : list pyval) (st : state) :
  count_conditions l = 0 -> scan_any l st = (Return false, st).
Proof.
  induction l as [|c l IH]; intros H0; [reflexivity|].
  rewrite count_conditions_cons in H0.
  destruct (is_condition c) eqn:Hc; [discriminate|].
  cbn [scan_any]. rewrite (eval_condition_skipped c st Hc). apply IH.
  exact H0.
Qed.

Lemma scan_one_condition (l : list pyval) :
  forall st : state,
    count_conditions l = 1 -> scan_all l 0 st = scan_any l st.
Proof.
  induction l as [|c l IH]; intros st H1; [discriminate|].
  rewrite count_conditions_cons in H1. cbn [scan_all scan_any].
  destruct (eval_condition c st) as [v st0] eqn:E.
  pose proof (eval_condition_kind _ _ _ _ E) as Hk.
  destruct v as [|[|]|e].
  - destruct Hk as [Hc ->]. rewrite Hc in H1. apply IH. exact H1.
  - simpl in Hk. rewrite Hk in H1. apply scan_all_no_condition. lia.
  - simpl in Hk. rewrite Hk in H1. symmetry. apply scan_any_no_condition.
    lia.
  - reflexivity.
Qed.


End Facts.

(** * Concatenation *)

Section Parts.

Variable W : Type.
Variable fenv : fid -> W -> outcome pyval * W.
Variable oenv : oid -> W -> outcome bool * W.

(** Where the concatenation and its two parts are. *)
Variables whole part1 part2 : W -> list pyval.

Local Abbreviation state := (state W).
Local Abbreviation eval_condition := (eval_condition fenv oenv).
Local Abbreviation scan_all := (scan_all fenv oenv).
Local Abbreviation scan_any := (scan_any fenv oenv).
Local Abbreviation lazy_all := (lazy_all fenv oenv).
Local Abbreviation lazy_any := (lazy_any fenv oenv).
Local Abbreviation thunks_keep := (thunks_keep fenv oenv).
Local Abbreviation always_yield := (always_yield fenv oenv).

(** ** The scan of a concatenation *)

Lemma scan_any_app (l1 l2 : list pyval) :
  forall st : state,
    scan_any (l1 ++ l2) st =
    match scan_any l1 st with
    | (Return true, st') => (Return true, st')
    | (Return false, st') => scan_any l2 st'
    | (Raise e, st') => (Raise e, st')
    end.
Proof.
  induction l1 as [|c l1 IH]; intros st; [reflexivity|].
  rewrite <- app_comm_cons. cbn [scan_any].
  destruct (eval_condition c st) as [[|[|]|e] st0];
    try reflexivity; apply IH.
Qed.

(** The tally counts only through being zero or not. *)
Lemma scan_all_tally (l : list pyval) :
  forall (n m : nat) (st : state),
    (0 <? n + count_conditions l) = (0 <? m + count_conditions l) ->
    scan_all l n st = scan_all l m st.
Proof.
  induction l as [|c l IH]; intros n m st H.
  - simpl. unfold count_conditions in H. simpl in H.
    rewrite !Nat.add_0_r in H. rewrite H. reflexivity.
  - rewrite count_conditions_cons in H. cbn [scan_all].
    destruct (eval_condition c st) as [v st0] eqn:E.
    pose proof (eval_condition_kind _ _ _ _ _ _ _ E) as Hk.
    destruct v as [|[|]|e]; try reflexivity.
    + destruct Hk as [Hc _]. rewrite Hc in H. apply IH. exact H.
    + apply IH. transitivity true; [|symmetry]; apply Nat.ltb_lt; lia.
Qed.

Lemma scan_all_app (l1 l2 : list pyval) :
  0 < count_conditions l2 ->
  forall (n : nat) (st : state),
    0 < n + count_conditions l1 ->
    scan_all (l1 ++ l2) n st =
    match scan_all l1 n st with
    | (Return true, st') => scan_all l2 0 st'
    | (Return false, st') => (Return false, st')
    | (Raise e, st') => (Raise e, st')
    end.
Proof.
  intros H2. induction l1 as [|c l1 IH]; intros n st Hpos.
  - unfold count_conditions in Hpos. simpl in Hpos.
    rewrite Nat.add_0_r in Hpos. simpl.
    rewrite (proj2 (Nat.ltb_lt _ _) Hpos).
    apply scan_all_tally.
    transitivity true; [|symmetry]; apply Nat.ltb_lt; lia.
  - rewrite count_conditions_cons in Hpos.
    rewrite <- app_comm_cons. cbn [scan_all].
    destruct (eval_condition c st) as [v st0] eqn:E.
    pose proof (eval_condition_kind _ _ _ _ _ _ _ E) as Hk.
    destruct v as [|[|]|e]; try reflexivity.
    + destruct Hk as [Hc _]. rewrite Hc in Hpos. apply IH. exact Hpos.
    + apply IH. lia.
Qed.

Lemma scan_all_app_left (l1 l2 : list pyval) (n : nat) (st : state) :
  count_conditions l1 = 0 ->
  scan_all (l1 ++ l2) n st = scan_all l2 n st.
Proof.
  revert st. induction l1 as [|c l1 IH]; intros st H0; [reflexivity|].
  rewrite count_conditions_cons in H0.
  destruct (is_condition c) eqn:Hc; [discriminate|].
  rewrite <- app_comm_cons. cbn [scan_all].
  rewrite (eval_condition_skipped _ _ _ c st Hc). apply IH. exact H0.
Qed.

Lemma scan_all_app_right (l1 l2 : list pyval) :
  count_conditions l2 = 0 ->
  forall (n : nat) (st : state),
    scan_all (l1 ++ l2) n st = scan_all l1 n st.
Proof.
  intros H0. induction l1 as [|c l1 IH]; intros n st.
  - simpl. exact (scan_all_no_condition _ _ _ l2 n st H0).
  - rewrite <- app_comm_cons. cbn [scan_all].
    destruct (eval_condition c st) as [[|[|]|e] st0];
      try reflexivity; apply IH.
Qed.

Lemma scan_any_total (l : list pyval) :
  always_yield l ->
  forall st : state, exists b st', scan_any l st = (Return b, st').
Proof.
  induction l as [|c l IH]; intros Hy st.
  - exists false, st. reflexivity.
  - assert (Hl : always_yield l).
    { intros f Hf. apply Hy. right. exact Hf. }
    cbn [scan_any]. destruct (eval_condition c st) as [v st0] eqn:E.
    destruct v as [|[|]|e].
    + apply IH. exact Hl.
    + exists true, st0. reflexivity.
    + apply IH. exact Hl.
    + destruct c as [| b | z | s | items | items | f | g | t | o];
        try discriminate.
      destruct (Hy f (or_introl eq_refl) st) as (b & st' & Hb).
      rewrite Hb in E. discriminate.
Qed.

(** ** The calls on the three lists *)

Section Calls.

Variables (l1 l2 : list pyval) (fuel : nat) (st : state).
Hypothesis Hwhole : whole (world st) = l1 ++ l2.
Hypothesis Hpart1 : part1 (world st) = l1.
Hypothesis Hpart2 : part2 (world st) = l2.
Hypothesis Kwhole : thunks_keep whole (l1 ++ l2).
Hypothesis Kpart1 : thunks_keep part1 l1.
Hypothesis Kpart2 : thunks_keep part2 (l1 ++ l2).
Hypothesis Hfuel : length (l1 ++ l2) < fuel.

Lemma keep_left : thunks_keep part2 l1.
Proof. intros f Hf. apply Kpart2. apply in_or_app. left. exact Hf. Qed.

Lemma keep_right : thunks_keep part2 l2.
Proof. intros f Hf. apply Kpart2. apply in_or_app. right. exact Hf. Qed.

Lemma fuel_left : length l1 < fuel.
Proof. rewrite length_app in Hfuel. lia. Qed.

Lemma fuel_right : length l2 < fuel.
Proof. rewrite length_app in Hfuel. lia. Qed.

Lemma any_whole : lazy_any whole fuel st = Some (scan_any (l1 ++ l2) st).
Proof. exact (lazy_any_scans _ _ _ _ _ _ _ Kwhole Hwhole Hfuel). Qed.

Lemma any_left : lazy_any part1 fuel st = Some (scan_any l1 st).
Proof. exact (lazy_any_scans _ _ _ _ _ _ _ Kpart1 Hpart1 fuel_left). Qed.

Lemma any_right (o : outcome bool) (st' : state) :
  scan_any l1 st = (o, st') ->
  lazy_any part2 fuel st' = Some (scan_any l2 st').
Proof.
  intros E. apply (lazy_any_scans _ _ _ _ _ _ _ keep_right);
    [|exact fuel_right].
  pose proof (scan_any_keeps _ _ _ _ part2 l1 keep_left st) as Hk.
  rewrite E in Hk. simpl in Hk. rewrite Hk. exact Hpart2.
Qed.

Lemma all_whole : lazy_all whole fuel st = Some (scan_all (l1 ++ l2) 0 st).
Proof. exact (lazy_all_scans _ _ _ _ _ _ _ Kwhole Hwhole Hfuel). Qed.

Lemma all_left : lazy_all part1 fuel st = Some (scan_all l1 0 st).
Proof. exact (lazy_all_scans _ _ _ _ _ _ _ Kpart1 Hpart1 fuel_left). Qed.

Lemma all_right (o : outcome bool) (st' : state) :
  scan_all l1 0 st = (o, st') ->
  lazy_all part2 fuel st' = Some (scan_all l2 0 st').
Proof.
  intros E. apply (lazy_all_scans _ _ _ _ _ _ _ keep_right);
    [|exact fuel_right].
  pose proof (scan_all_keeps _ _ _ _ part2 l1 keep_left 0 st) as Hk.
  rewrite E in Hk. simpl in Hk. rewrite Hk. exact Hpart2.
Qed.

End Calls.

(** C10, as amended. For lists [l1] and [l2] whose thunks leave the lists
    being scanned as they are, [lazy_any (l1 ++ l2)] is
    [lazy_any l1 or lazy_any l2]: same result or exception, same state
    left, the second call being made in the state the first one left and
    only when the first returned [False].  When moreover evaluating the
    thunks never raises, both calls return booleans and the concatenation
    returns their disjunction. *)
Theorem lazy_any_distributes
  (l1 l2 : list pyval) (fuel : nat) (st : state) :
  whole (world st) = l1 ++ l2 ->
  part1 (world st) = l1 ->
  part2 (world st) = l2 ->
  thunks_keep whole (l1 ++ l2) ->
  thunks_keep part1 l1 ->
  thunks_keep part2 (l1 ++ l2) ->
  length (l1 ++ l2) < fuel ->
  lazy_any whole fuel st =
    por (lazy_any part1 fuel) (lazy_any part2 fuel) st /\
  (always_yield (l1 ++ l2) ->
   exists b1 st1 b2 st2,
     lazy_any part1 fuel st = Some (Return b1, st1) /\
     lazy_any part2 fuel st1 = Some (Return b2, st2) /\
     lazy_any whole fuel st =
       Some (Return (b1 || b2), if b1 then st1 else st2)).
Proof.
  intros Hw H1 H2 Kw K1 K2 Hfuel.
  pose proof (any_whole l1 l2 fuel st Hw Kw Hfuel) as Ew.
  pose proof (any_left l1 l2 fuel st H1 K1 Hfuel) as El.
  pose proof (any_right l1 l2 fuel st H2 K2 Hfuel) as Er.
  rewrite scan_any_app in Ew. split.
  - unfold por. rewrite Ew, El.
    destruct (scan_any l1 st) as [[[|]|e] st'] eqn:E1; try reflexivity.
    symmetry. exact (Er _ _ eq_refl).
  - intros Hy.
    assert (Hy1 : always_yield l1).
    { intros f Hf. apply Hy. apply in_or_app. left. exact Hf. }
    assert (Hy2 : always_yield l2).
    { intros f Hf. apply Hy. apply in_or_app. right. exact Hf. }
    destruct (scan_any_total l1 Hy1 st) as (b1 & st1 & E1).
    destruct (scan_any_total l2 Hy2 st1) as (b2 & st2 & E2).
    exists b1, st1, b2, st2. rewrite Ew, El, E1, (Er _ _ E1), E2.
    split; [reflexivity | split; [reflexivity|]].
    destruct b1; reflexivity.
Qed.


End Parts.

(** * The functions at work *)

(** ** The examples of the documentation *)

Example doc_lazy_all :
  let run l :=
    option_map fst (lazy_all Demo.env Demo.objects Demo.cell 9 (Demo.start l))
  in
  run [VBool true; VBool true; VFunc Demo.true_thunk] = Some (Return true) /\
  run [VFunc Demo.false_thunk; VBool true] = Some (Return false) /\
  run [] = Some (Return false) /\
  run [VInt 5] = Some (Return false) /\
  run [VInt 5; VBool true; VBool true; VBool true] = Some (Return true) /\
  run [VBool true; VInt 5] = Some (Return true) /\
  run [VFunc Demo.five_thunk] = Some (Return true) /\
  run [VFunc Demo.five_thunk; VFunc Demo.zero_thunk] = Some (Return false).
Proof. repeat split. Qed.

Example doc_lazy_any :
  let run l :=
    option_map fst (lazy_any Demo.env Demo.objects Demo.cell 9 (Demo.start l))
  in
  run [VBool true; VBool true; VFunc Demo.true_thunk] = Some (Return true) /\
  run [VBool false; VBool true; VFunc Demo.false_thunk] = Some (Return true) /\
  run [VFunc Demo.false_thunk; VBool true] = Some (Return true) /\
  run [] = Some (Return false) /\
  run [VInt 5] = Some (Return false) /\
  run [VInt 5; VInt 3; VInt 6; VBool false; VBool true] = Some (Return true) /\
  run [VBool true; VInt 5] = Some (Return true) /\
  run [VBool false; VInt 5] = Some (Return false) /\
  run [VFunc Demo.five_thunk] = Some (Return true) /\
  run [VFunc Demo.five_thunk; VFunc Demo.zero_thunk] = Some (Return true).
Proof. repeat split. Qed.

(** ** Thunks that change the list, and values whose test raises *)

(** [conditions = [lambda: conditions.append(False) or True]]: the loop
    meets the [False] the thunk appended. *)
Example appended_entry_is_met :
  lazy_all Demo.env Demo.objects Demo.cell 9
    (Demo.start [VFunc Demo.appender]) =
  Some (Return false,
        Demo.state_of [VFunc Demo.appender; VBool false] 0 [Demo.appender]).
Proof. reflexivity. Qed.

(** [conditions = [dropper, False, True]], where [dropper] removes the
    entry after it: the loop never meets the [False]. *)
Example dropped_entry_is_not_met :
  lazy_all Demo.env Demo.objects Demo.cell 9
    (Demo.start [VFunc Demo.dropper; VBool false; VBool true]) =
  Some (Return true,
        Demo.state_of [VFunc Demo.dropper; VBool true] 0 [Demo.dropper]).
Proof. reflexivity. Qed.

(** [conditions = [lambda: conditions.append(True)]]: the thunk yields a
    falsy result and [lazy_any] meets the [True] it appended. *)
Example lazy_any_meets_appended_entry :
  lazy_any Demo.env Demo.objects Demo.cell 9
    (Demo.start [VFunc Demo.false_appender]) =
  Some (Return true,
        Demo.state_of [VFunc Demo.false_appender; VBool true] 0
          [Demo.false_appender]).
Proof. reflexivity. Qed.

(** A thunk that raises, and a thunk that returns an object whose
    [__bool__] raises: the call ends with the exception either way. *)
Example failures :
  lazy_any Demo.env Demo.objects Demo.cell 9
    (Demo.start [VBool false; VFunc Demo.failing_thunk; VBool true]) =
  Some (Raise Demo.zero_division,
        Demo.state_of [VBool false; VFunc Demo.failing_thunk; VBool true] 1
          [Demo.failing_thunk]) /\
  lazy_any Demo.env Demo.objects Demo.cell 9
    (Demo.start [VFunc Demo.moody_thunk; VBool true]) =
  Some (Raise Demo.value_error,
        Demo.state_of [VFunc Demo.moody_thunk; VBool true] 1
          [Demo.moody_thunk]).
Proof. split; reflexivity. Qed.

(** ** Where the specification says more than the code does *)



(** C10, as stated, fails: with [l1 = [lambda: whole.append(True)]] and
    [l2 = [False]], where [whole] is the concatenation handed to
    [lazy_any], no thunk raises, [lazy_any(whole)] returns [True] and
    [lazy_any(l1) or lazy_any(l2)] is [False]. *)
Lemma concatenation_changed_by_a_thunk :
  let l1 := [VFunc Demo.false_appender] in
  let l2 := [VBool false] in
  let st := Demo.start_parts l1 l2 in
  always_yield Demo.env Demo.objects (l1 ++ l2) /\
  option_map fst (lazy_any Demo.env Demo.objects Demo.cell 9 st) =
    Some (Return true) /\
  option_map fst
    (por (lazy_any Demo.env Demo.objects Demo.first_part 9)
         (lazy_any Demo.env Demo.objects Demo.second_part 9) st) =
    Some (Return false).
Proof.
  intros l1 l2 st. split; [|split; reflexivity].
  intros f [H|[H|[]]]; [|discriminate H].
  injection H as <-. intros s. eexists. eexists. reflexivity.
Qed.

(** ** The theorems at concrete lists *)

(** [[dropper, True, False, counter]]: the thunk removes the [True] after
    it, the loop meets the [False] next and stops; the counter thunk is
    not called. *)
Lemma lazy_all_short_circuits_witness :
  let l := [VFunc Demo.dropper; VBool true; VBool false;
            VFunc Demo.counter_thunk] in
  let l' := [VFunc Demo.dropper; VBool false; VFunc Demo.counter_thunk] in
  let st1 := Demo.state_of l' 0 [Demo.dropper] in
  passes Demo.env Demo.objects Demo.cell true 1 0 (Demo.start l) =
    Some ([VFunc Demo.dropper], st1) /\
  nth_error (Demo.cell (world st1)) 1 = Some (VBool false) /\
  eval_condition Demo.env Demo.objects (VBool false) st1 =
    (Yields false, st1) /\
  1 < 9 /\
  lazy_all Demo.env Demo.objects Demo.cell 9 (Demo.start l) =
    Some (Return false, st1) /\
  calls st1 = calls (Demo.start l) ++ thunks ([VFunc Demo.dropper] ++
                                              [VBool false]).
Proof.
  intros l l' st1.
  assert (H : 1 < 9) by lia.
  split; [reflexivity|]. split; [reflexivity|]. split; [reflexivity|].
  split; [exact H|].
  exact (lazy_all_short_circuits _ Demo.env Demo.objects Demo.cell
           1 9 [VFunc Demo.dropper] (VBool false) (Demo.start l) st1 st1
           eq_refl eq_refl eq_refl H).
Defined.

Lemma lazy_all_completes_witness :
  let l := [VBool true; VInt 5; VFunc Demo.five_thunk] in
  let st' := Demo.state_of l 1 [Demo.five_thunk] in
  passes Demo.env Demo.objects Demo.cell true 3 0 (Demo.start l) =
    Some (l, st') /\
  nth_error (Demo.cell (world st')) 3 = None /\
  3 < 9 /\
  exists b,
    lazy_all Demo.env Demo.objects Demo.cell 9 (Demo.start l) =
      Some (Return b, st') /\
    (b = true <-> exists c, In c l /\ is_condition c = true).
Proof.
  intros l st'.
  assert (H : 3 < 9) by lia.
  split; [reflexivity|]. split; [reflexivity|]. split; [exact H|].
  exact (proj1 (lazy_all_completes _ Demo.env Demo.objects Demo.cell 9
                  (Demo.start l)) 3 l st' eq_refl eq_refl H).
Defined.

Lemma lazy_any_returns_witness :
  let l := [VBool false; VInt 5; VFunc Demo.zero_thunk] in
  let st' := Demo.state_of l 1 [Demo.zero_thunk] in
  passes Demo.env Demo.objects Demo.cell false 3 0 (Demo.start l) =
    Some (l, st') /\
  nth_error (Demo.cell (world st')) 3 = None /\
  3 < 9 /\
  lazy_any Demo.env Demo.objects Demo.cell 9 (Demo.start l) =
    Some (Return false, st').
Proof.
  intros l st'.
  assert (H : 3 < 9) by lia.
  split; [reflexivity|]. split; [reflexivity|]. split; [exact H|].
  exact (proj1 (proj2 (lazy_any_returns _ Demo.env Demo.objects Demo.cell 9
                         (Demo.start l))) 3 l st' eq_refl eq_refl H).
Defined.




Lemma thunk_exception_propagates_witness :
  let l := [VFunc Demo.false_thunk; VInt 5; VFunc Demo.failing_thunk;
            VFunc Demo.counter_thunk] in
  let st1 := Demo.state_of l 1 [Demo.false_thunk] in
  let st2 := Demo.state_of l 2 [Demo.false_thunk; Demo.failing_thunk] in
  nth_error (Demo.cell (world st1)) 2 = Some (VFunc Demo.failing_thunk) /\
  Demo.env Demo.failing_thunk (world st1) =
    (Raise Demo.zero_division, world st2) /\
  2 < 9 /\
  passes Demo.env Demo.objects Demo.cell false 2 0 (Demo.start l) =
    Some ([VFunc Demo.false_thunk; VInt 5], st1) /\
  lazy_any Demo.env Demo.objects Demo.cell 9 (Demo.start l) =
    Some (Raise Demo.zero_division, st2).
Proof.
  intros l st1 st2.
  assert (H : 2 < 9) by lia.
  split; [reflexivity|]. split; [reflexivity|]. split; [exact H|].
  split; [reflexivity|].
  pose proof (thunk_exception_propagates _ Demo.env Demo.objects Demo.cell
                2 9 [VFunc Demo.false_thunk; VInt 5] Demo.failing_thunk
                (Demo.start l) st1 Demo.zero_division (world st2)
                eq_refl eq_refl H) as T.
  exact (proj1 (proj2 T eq_refl)).
Defined.

Lemma demo_thunks_keep_cell :
  thunks_keep Demo.env Demo.objects Demo.cell
    [VFunc Demo.true_thunk; VInt 5; VFunc Demo.zero_thunk; VBool true].
Proof.
  intros f [H|[H|[H|[H|[]]]]]; try discriminate H;
    injection H as <-; intros w; reflexivity.
Defined.


Lemma booleans_as_builtins_witness :
  let bs := [true; false; true] in
  Demo.cell (world (Demo.start (map VBool bs))) = map VBool bs /\
  length bs < 9 /\
  bs <> [] /\
  lazy_all Demo.env Demo.objects Demo.cell 9 (Demo.start (map VBool bs)) =
    Some (Return (builtin_all bs), Demo.start (map VBool bs)).
Proof.
  intros bs.
  assert (H : length bs < 9) by (simpl; lia).
  assert (Hne : bs <> []) by discriminate.
  split; [reflexivity|]. split; [exact H|]. split; [exact Hne|].
  exact (proj1 (proj2 (booleans_as_builtins _ Demo.env Demo.objects
                         Demo.cell bs 9 (Demo.start (map VBool bs))
                         eq_refl H)) Hne).
Defined.

Lemma demo_parts_keep (A : Type) (part : Demo.heap -> A) :
  (forall n h, part (Demo.bump n h) = part h) ->
  thunks_keep Demo.env Demo.objects part
    ([VFunc Demo.zero_thunk; VInt 5] ++ [VBool false; VFunc Demo.five_thunk]).
Proof.
  intros Hb f [H|[H|[H|[H|[]]]]]; try discriminate H;
    injection H as <-; intros w; apply Hb.
Defined.

Lemma lazy_any_distributes_witness :
  let l1 := [VFunc Demo.zero_thunk; VInt 5] in
  let l2 := [VBool false; VFunc Demo.five_thunk] in
  let st := Demo.start_parts l1 l2 in
  Demo.cell (world st) = l1 ++ l2 /\
  Demo.first_part (world st) = l1 /\
  Demo.second_part (world st) = l2 /\
  thunks_keep Demo.env Demo.objects Demo.cell (l1 ++ l2) /\
  thunks_keep Demo.env Demo.objects Demo.first_part l1 /\
  thunks_keep Demo.env Demo.objects Demo.second_part (l1 ++ l2) /\
  length (l1 ++ l2) < 9 /\
  lazy_any Demo.env Demo.objects Demo.cell 9 st =
    por (lazy_any Demo.env Demo.objects Demo.first_part 9)
        (lazy_any Demo.env Demo.objects Demo.second_part 9) st.
Proof.
  intros l1 l2 st.
  assert (H : length (l1 ++ l2) < 9) by (simpl; lia).
  assert (K0 : thunks_keep Demo.env Demo.objects Demo.cell (l1 ++ l2)).
  { apply demo_parts_keep. reflexivity. }
  assert (K2 : thunks_keep Demo.env Demo.objects Demo.second_part
                 (l1 ++ l2)).
  { apply demo_parts_keep. reflexivity. }
  assert (K1 : thunks_keep Demo.env Demo.objects Demo.first_part l1).
  { intros f Hf. apply (demo_parts_keep _ Demo.first_part);
      [reflexivity|]. apply in_or_app. left. exact Hf. }
  split; [reflexivity|]. split; [reflexivity|]. split; [reflexivity|].
  split; [exact K0|]. split; [exact K1|]. split; [exact K2|].
  split; [exact H|].
  exact (proj1 (lazy_any_distributes _ Demo.env Demo.objects Demo.cell
                  Demo.first_part Demo.second_part l1 l2 9 st
                  eq_refl eq_refl eq_refl K0 K1 K2 H)).
Defined.

(** ** How a run ends, at concrete lists *)


Lemma lazy_all_true_witness :
  let l := [VFunc Demo.dropper; VBool false; VBool true] in
  let st' := Demo.state_of [VFunc Demo.dropper; VBool true] 0
               [Demo.dropper] in
  lazy_all Demo.env Demo.objects Demo.cell 9 (Demo.start l) =
    Some (Return true, st') /\
  exists k seen,
    k < 9 /\
    runs_out Demo.env Demo.objects Demo.cell true k 0 (Demo.start l)
      seen st' /\
    0 < count_conditions seen /\
    calls st' = calls (Demo.start l) ++ thunks seen.
Proof.
  intros l st'. split; [reflexivity|].
  exact (proj1 (lazy_all_true _ Demo.env Demo.objects Demo.cell 9
                  (Demo.start l) st') eq_refl).
Defined.

Lemma lazy_any_false_witness :
  let l := [VBool false; VFunc Demo.zero_thunk; VInt 5] in
  let st' := Demo.state_of l 1 [Demo.zero_thunk] in
  lazy_any Demo.env Demo.objects Demo.cell 9 (Demo.start l) =
    Some (Return false, st') /\
  exists k seen,
    k < 9 /\
    runs_out Demo.env Demo.objects Demo.cell false k 0 (Demo.start l)
      seen st' /\
    calls st' = calls (Demo.start l) ++ thunks seen.
Proof.
  intros l st'. split; [reflexivity|].
  exact (proj1 (lazy_any_false _ Demo.env Demo.objects Demo.cell 9
                  (Demo.start l) st') eq_refl).
Defined.

Lemma lazy_all_false_witness :
  let l := [VFunc Demo.appender] in
  let st' := Demo.state_of [VFunc Demo.appender; VBool false] 0
               [Demo.appender] in
  lazy_all Demo.env Demo.objects Demo.cell 9 (Demo.start l) =
    Some (Return false, st') /\
  exists k seen,
    k < 9 /\
    ((exists c, stops Demo.env Demo.objects Demo.cell true k 0
                  (Demo.start l) seen c st') \/
     (runs_out Demo.env Demo.objects Demo.cell true k 0 (Demo.start l)
        seen st' /\ count_conditions seen = 0)).
Proof.
  intros l st'. split; [reflexivity|].
  exact (proj1 (lazy_all_false _ Demo.env Demo.objects Demo.cell 9
                  (Demo.start l) st') eq_refl).
Defined.


Lemma all_implies_any_witness :
  let l := [VFunc Demo.dropper; VBool false; VBool true] in
  let st' := Demo.state_of [VFunc Demo.dropper; VBool true] 0
               [Demo.dropper] in
  lazy_all Demo.env Demo.objects Demo.cell 9 (Demo.start l) =
    Some (Return true, st') /\
  exists st2,
    lazy_any Demo.env Demo.objects Demo.cell 9 (Demo.start l) =
      Some (Return true, st2).
Proof.
  intros l st'. split; [reflexivity|].
  exact (proj1 (all_implies_any _ Demo.env Demo.objects Demo.cell 9
                  (Demo.start l) st') eq_refl).
Defined.



